(** * boardgame.io client runtime ([src/client/client.js])

    A shallow embedding of the client: dispatcher construction with
    player-identity resolution, the log middleware, the [getState]
    projection and the [_ClientImpl] constructor and mutators, followed by
    the properties of the specification that hold (or fail) on that code. *)

From stdpp Require Import base option list strings pretty gmap.

#[local] Set Warnings "-register-all".

Open Scope string_scope.

(** ** JavaScript values *)

Module JS.

(** The values the client inspects at run time.  Numbers are integers here
    (the client never computes with them), objects are property lists in
    insertion order, arrays carry their elements only. *)
Inductive jsval : Type :=
| JUndefined
| JNull
| JBool (b : bool)
| JNum (n : Z)
| JStr (s : string)
| JArr (elems : list jsval)
| JObj (props : list (string * jsval)).

(** What an evaluation step can raise.  [TypeError] is JavaScript's;
    [OutOfModel] marks the one operation the value model cannot express
    (a named property stored on an array). *)
Inductive exn : Type := TypeError | OutOfModel.

(** A completion: a normal value or a thrown exception. *)
Inductive completion (A : Type) : Type :=
| Normal (a : A)
| Throw (e : exn).
Global Arguments Normal {A} a.
Global Arguments Throw {A} e.

Global Instance completion_ret : MRet completion := @Normal.
Global Instance completion_bind : MBind completion := λ A B f m,
  match m with
  | Normal a => f a
  | Throw e => Throw e
  end.

(** [ToBoolean]. *)
Definition truthy (v : jsval) : bool :=
  match v with
  | JUndefined | JNull => false
  | JBool b => b
  | JNum n => negb (n =? 0)%Z
  | JStr s => negb (String.eqb s "")
  | JArr _ | JObj _ => true
  end.

(** [a || b]. *)
Definition js_or (a b : jsval) : jsval := if truthy a then a else b.

(** [v === undefined], [v === null]. *)
Definition is_undefined (v : jsval) : bool :=
  match v with JUndefined => true | _ => false end.
Definition is_null (v : jsval) : bool :=
  match v with JNull => true | _ => false end.

(** [v === s] for a string constant [s]. *)
Definition strict_eq_str (v : jsval) (s : string) : bool :=
  match v with JStr t => String.eqb t s | _ => false end.

(** First binding of a key in a property list. *)
Fixpoint assoc {A : Type} (k : string) (ps : list (string * A)) : option A :=
  match ps with
  | [] => None
  | (k', v) :: ps' => if String.eqb k' k then Some v else assoc k ps'
  end.

(** [o[k] = v] on a property list: overwrite in place, or add at the end. *)
Fixpoint assoc_set {A : Type} (k : string) (v : A) (ps : list (string * A))
  : list (string * A) :=
  match ps with
  | [] => [(k, v)]
  | (k', v') :: ps' =>
      if String.eqb k' k then (k', v) :: ps' else (k', v') :: assoc_set k v ps'
  end.

(** [v.k] for the identifier keys the client reads ([type], [ctx],
    [deltalog], ...; never [length] or an index): reading from [undefined]
    or [null] throws, a missing property is [undefined], and primitives and
    plain arrays have none of these properties. *)
Definition get (v : jsval) (k : string) : completion jsval :=
  match v with
  | JUndefined | JNull => Throw TypeError
  | JObj ps => Normal (default JUndefined (assoc k ps))
  | _ => Normal JUndefined
  end.

(** The one-character strings a string iterates over. *)
Fixpoint chars (s : string) : list jsval :=
  match s with
  | EmptyString => []
  | String a s' => JStr (String a EmptyString) :: chars s'
  end.

(** [v[0]]. *)
Definition get_index0 (v : jsval) : completion jsval :=
  match v with
  | JUndefined | JNull => Throw TypeError
  | JArr l => Normal (default JUndefined (head l))
  | JStr s => Normal (default JUndefined (head (chars s)))
  | JObj ps => Normal (default JUndefined (assoc "0" ps))
  | _ => Normal JUndefined
  end.

(** [k in v]: a [TypeError] unless [v] is an object. *)
Definition has_property (k : string) (v : jsval) : completion bool :=
  match v with
  | JObj ps => Normal (bool_decide (is_Some (assoc k ps)))
  | JArr _ => Normal false
  | _ => Throw TypeError
  end.

(** [v instanceof Object]. *)
Definition instanceof_Object (v : jsval) : bool :=
  match v with JArr _ | JObj _ => true | _ => false end.

(** The elements [...v] contributes to an array literal: arrays and strings
    are iterable, everything else (in particular [undefined]) is not. *)
Definition spread (v : jsval) : completion (list jsval) :=
  match v with
  | JArr l => Normal l
  | JStr s => Normal (chars s)
  | _ => Throw TypeError
  end.

(** The own enumerable properties [{...v}] copies. *)
Definition spread_props (v : jsval) : list (string * jsval) :=
  match v with
  | JObj ps => ps
  | JArr l => imap (λ i x, (pretty i, x)) l
  | JStr s => imap (λ i x, (pretty i, x)) (chars s)
  | _ => []
  end.

(** [{...ps, k: v}] on property lists. *)
Definition with_prop (ps : list (string * jsval)) (k : string) (v : jsval)
  : list (string * jsval) := assoc_set k v ps.

(** [o.k = v] (strict mode): a [TypeError] on [undefined], [null] and
    primitives. *)
Definition set_prop (o : jsval) (k : string) (v : jsval) : completion jsval :=
  match o with
  | JObj ps => Normal (JObj (assoc_set k v ps))
  | JArr _ => Throw OutOfModel
  | _ => Throw TypeError
  end.

End JS.
Export JS.

(** ** The store and the client's mutable cells *)

(** What [store.dispatch] can reach and change: the store's current state and
    the client's log ([this.log], written by the log middleware, which closes
    over [this]). *)
Record Heap : Type := {
  store_state : jsval;
  log : jsval;
}.

(** Computations over the heap.  The heap survives an exception: whatever was
    assigned before the throw stays assigned. *)
Definition M (A : Type) : Type := Heap → completion A * Heap.

Global Instance M_ret : MRet M := λ A a h, (Normal a, h).
Global Instance M_bind : MBind M := λ A B f m h,
  match m h with
  | (Normal a, h') => f a h'
  | (Throw e, h') => (Throw e, h')
  end.

Definition lift {A : Type} (c : completion A) : M A := λ h, (c, h).

(** The store below the log middleware: [next st action s] is what the
    wrapped [dispatch] returns on [action] from state [s], and the state it
    leaves. *)
Record Store : Type := {
  next : jsval → jsval → completion jsval * jsval;
}.

(** [store.getState()]. *)
Definition store_getState : M jsval := λ h, (Normal (store_state h), h).

(** [next(action)] inside the middleware. *)
Definition store_next (store : Store) (action : jsval) : M jsval := λ h,
  let '(r, s) := next store action (store_state h) in
  (r, {| store_state := s; log := log h |}).

(** [this.log], [this.log = v]. *)
Definition this_log : M jsval := λ h, (Normal (log h), h).
Definition set_this_log (v : jsval) : M unit := λ h,
  (Normal (), {| store_state := store_state h; log := v |}).

(** ** Imported modules *)

(** [../core/action-types]: the string tags the middleware switches on. *)
Record ActionTypes : Type := {
  MAKE_MOVE : string;
  GAME_EVENT : string;
  RESET : string;
  UPDATE : string;
  SYNC : string;
}.

(** The tags are pairwise different. *)
Definition distinct_tags (Actions : ActionTypes) : Prop :=
  NoDup [MAKE_MOVE Actions; GAME_EVENT Actions; RESET Actions;
         UPDATE Actions; SYNC Actions].

(** [../core/action-creators]: [makeMove] and [gameEvent] take
    [(name, args, playerID, credentials)]; [reset], [undo] and [redo] take
    nothing. *)
Record ActionCreatorsT : Type := {
  makeMove : jsval → jsval → jsval → jsval → jsval;
  gameEvent : jsval → jsval → jsval → jsval → jsval;
  reset : jsval;
  undo : jsval;
  redo : jsval;
}.

(** [ActionCreators[storeActionType]] as a callable; a name the module does
    not export is [undefined], and calling it throws. *)
Definition ActionCreators_at (ActionCreators : ActionCreatorsT)
    (storeActionType : string)
  : completion (jsval → jsval → jsval → jsval → jsval) :=
  if String.eqb storeActionType "makeMove" then
    Normal (makeMove ActionCreators)
  else if String.eqb storeActionType "gameEvent" then
    Normal (gameEvent ActionCreators)
  else if String.eqb storeActionType "reset" then
    Normal (λ _ _ _ _, reset ActionCreators)
  else if String.eqb storeActionType "undo" then
    Normal (λ _ _ _ _, undo ActionCreators)
  else if String.eqb storeActionType "redo" then
    Normal (λ _ _ _ _, redo ActionCreators)
  else Throw TypeError.

(** The game object: [game.name], [game.moveNames], [game.flow] and
    [game.playerView]. *)
Record Flow : Type := {
  eventNames : list string;
  canPlayerMakeMove : jsval → jsval → jsval → jsval;
}.

Record Game : Type := {
  name : jsval;
  moveNames : list string;
  flow : Flow;
  playerView : jsval → jsval → jsval → jsval;
}.

(** The autoplay strategy: [bot.play(state, playerID)] returns an object with
    [action] and [metadata]; [ai.bot] is its constructor. *)
Record Bot : Type := {
  play : jsval → jsval → jsval;
}.

Record AI : Type := {
  bot : Game → jsval → Bot;
  enumerate : jsval;
}.

(** A reducer: [(state, action) => state]. *)
Definition Reducer : Type := jsval → jsval → jsval.

(** [./multiplayer/multiplayer]: the transport. *)
Class Transport (T : Type) : Type := {
  (** [new Multiplayer({gameID, playerID, gameName, numPlayers, server,
      socketOpts})] *)
  new_Multiplayer : jsval → jsval → jsval → jsval → jsval → jsval → T;
  transport_isConnected : T → jsval;
  transport_updatePlayerID : jsval → T → T;
  transport_updateGameID : jsval → T → T;
}.

(** ** The client *)

Section Client.

Context (Actions : ActionTypes) (ActionCreators : ActionCreatorsT).

(** The log middleware, [LogMiddleware = store => next => action => ...]:
    run the wrapped dispatch, read the state it left, and update [this.log]
    by the action's type.  The [switch] compares [action.type] with each
    tag in source order. *)
Definition LogMiddleware (store : Store) (action : jsval) : M jsval :=
  result ← store_next store action;
  state ← store_getState;
  type ← lift (get action "type");
  (if strict_eq_str type (MAKE_MOVE Actions)
      || strict_eq_str type (GAME_EVENT Actions) then
     deltalog ← lift (get state "deltalog");
     old ← this_log;
     l1 ← lift (spread old);
     l2 ← lift (spread deltalog);
     set_this_log (JArr (l1 ++ l2))
   else if strict_eq_str type (RESET Actions) then
     set_this_log (JArr [])
   else if strict_eq_str type (UPDATE Actions) then
     d ← lift (get action "deltalog");
     let deltalog := js_or d (JArr []) in
     old ← this_log;
     l1 ← lift (spread old);
     l2 ← lift (spread deltalog);
     set_this_log (JArr (l1 ++ l2))
   else if strict_eq_str type (SYNC Actions) then
     l ← lift (get action "log");
     set_this_log (js_or l (JArr []))
   else mret ());;
  mret result.

(** [store.dispatch] of the client's store: the enhancer puts the log
    middleware outermost. *)
Definition store_dispatch (store : Store) (action : jsval) : M jsval :=
  LogMiddleware store action.

(** A dispatcher: [function(...args) { ... }], returning nothing. *)
Definition Dispatcher : Type := list jsval → M unit.

(** The body of one dispatcher of [createDispatchers]. *)
Definition dispatcher (storeActionType name : string) (store : Store)
    (playerID credentials multiplayer : jsval) : Dispatcher := λ args,
  assumedPlayerID ←
    (if negb (truthy multiplayer) && (is_null playerID || is_undefined playerID)
     then
       state ← store_getState;
       ctx ← lift (get state "ctx");
       lift (get ctx "currentPlayer")
     else mret playerID);
  creator ← lift (ActionCreators_at ActionCreators storeActionType);
  store_dispatch store
    (creator (JStr name) (JArr args) assumedPlayerID credentials);;
  mret ().

(** [createDispatchers]: one dispatcher per name, a later occurrence of a
    name replacing an earlier one. *)
Definition createDispatchers (storeActionType : string)
    (innerActionNames : list string) (store : Store)
    (playerID credentials multiplayer : jsval) : gmap string Dispatcher :=
  foldl
    (λ dispatchers name,
       <[name := dispatcher storeActionType name store
                   playerID credentials multiplayer]> dispatchers)
    ∅ innerActionNames.

Definition createEventDispatchers := createDispatchers "gameEvent".
Definition createMoveDispatchers := createDispatchers "makeMove".

(** [this.step] of the constructor. *)
Definition step_fn (bot : Bot) (store : Store) : M jsval :=
  state ← store_getState;
  ctx ← lift (get state "ctx");
  actionPlayers ← lift (get ctx "actionPlayers");
  playerID ← lift (get_index0 actionPlayers);
  let r := play bot state playerID in
  action ← lift (get r "action");
  metadata ← lift (get r "metadata");
  if truthy action then
    payload ← lift (get action "payload");
    payload' ← lift (set_prop payload "metadata" metadata);
    action' ← lift (set_prop action "payload" payload');
    store_dispatch store action';;
    mret action'
  else mret action.

Context {T : Type} `{!Transport T} {Enhancer : Type}.

(** [createStore(reducer, enhancer)] of Redux below the log middleware, and
    [multiplayerClient.createStore(reducer, enhancer)]: the store and its
    initial state. *)
Context (createStore : Reducer → option Enhancer → Store * jsval).
Context (transport_createStore :
           T → Reducer → option Enhancer → Store * jsval).

(** [CreateGameReducer({game, numPlayers, multiplayer})]. *)
Context (CreateGameReducer : Game → jsval → jsval → Reducer).

(** The fields of a [_ClientImpl]. *)
Record ClientImpl : Type := {
  game : Game;
  playerID : jsval;
  gameID : jsval;
  credentials : jsval;
  multiplayer : jsval;
  reducer : Reducer;
  step : option (M jsval);
  store : Store;
  multiplayerClient : option T;
  moves : gmap string Dispatcher;
  events : gmap string Dispatcher;
  heap : Heap;
}.

(** The constructor's options. *)
Record ClientOpts : Type := {
  opts_game : Game;
  opts_ai : option AI;
  opts_numPlayers : jsval;
  opts_multiplayer : jsval;
  opts_socketOpts : jsval;
  opts_gameID : jsval;
  opts_playerID : jsval;
  opts_credentials : jsval;
  opts_enhancer : option Enhancer;
}.

(** [this.createDispatchers()]. *)
Definition createDispatchers_method (this : ClientImpl) : ClientImpl :=
  let moves' :=
    createMoveDispatchers (moveNames (game this)) (store this)
      (playerID this) (credentials this) (multiplayer this) in
  let events' :=
    createEventDispatchers (eventNames (flow (game this))) (store this)
      (playerID this) (credentials this) (multiplayer this) in
  {| game := game this; playerID := playerID this; gameID := gameID this;
     credentials := credentials this; multiplayer := multiplayer this;
     reducer := reducer this; step := step this; store := store this;
     multiplayerClient := multiplayerClient this;
     moves := moves'; events := events'; heap := heap this |}.

(** The constructor. *)
Definition new_ClientImpl (opts : ClientOpts) : completion ClientImpl :=
  let game := opts_game opts in
  let numPlayers := opts_numPlayers opts in
  let playerID := opts_playerID opts in
  let gameID := opts_gameID opts in
  let credentials := opts_credentials opts in
  let multiplayer := opts_multiplayer opts in
  is_server ←
    (if instanceof_Object multiplayer then has_property "server" multiplayer
     else Normal false);
  '(server, multiplayer) ←
    (if is_server : bool then
       server ← get multiplayer "server"; Normal (server, JBool true)
     else Normal (JUndefined, multiplayer));
  let reducer := CreateGameReducer game numPlayers multiplayer in
  let bot :=
    match opts_ai opts with
    | Some ai =>
        if is_undefined multiplayer
        then Some (bot ai game (enumerate ai)) else None
    | None => None
    end in
  let log := JArr [] in
  let enhancer := opts_enhancer opts in
  let '(multiplayerClient, (store, state), playerID) :=
    if truthy multiplayer then
      let mc := new_Multiplayer gameID playerID (name game) numPlayers
                  server (opts_socketOpts opts) in
      (Some mc, transport_createStore mc reducer enhancer, playerID)
    else
      (None, createStore reducer enhancer,
       if is_null playerID then JUndefined else playerID) in
  Normal (createDispatchers_method
    {| game := game; playerID := playerID; gameID := gameID;
       credentials := credentials; multiplayer := multiplayer;
       reducer := reducer; step := (λ b, step_fn b store) <$> bot;
       store := store; multiplayerClient := multiplayerClient;
       moves := ∅; events := ∅;
       heap := {| store_state := state; log := log |} |}).

(** [this.reset], [this.undo], [this.redo]. *)
Definition reset_method (this : ClientImpl) : M unit :=
  store_dispatch (store this) (reset ActionCreators);; mret ().
Definition undo_method (this : ClientImpl) : M unit :=
  store_dispatch (store this) (undo ActionCreators);; mret ().
Definition redo_method (this : ClientImpl) : M unit :=
  store_dispatch (store this) (redo ActionCreators);; mret ().

(** Running a heap computation (a dispatcher, [step], [reset]) on a client. *)
Definition with_heap (this : ClientImpl) (h : Heap) : ClientImpl :=
  {| game := game this; playerID := playerID this; gameID := gameID this;
     credentials := credentials this; multiplayer := multiplayer this;
     reducer := reducer this; step := step this; store := store this;
     multiplayerClient := multiplayerClient this;
     moves := moves this; events := events this; heap := h |}.

Definition run {A : Type} (m : M A) (this : ClientImpl)
  : completion A * ClientImpl :=
  let '(r, h) := m (heap this) in (r, with_heap this h).

(** [getState()]. *)
Definition getState (this : ClientImpl) : completion jsval :=
  let state := store_state (heap this) in
  let isActive := true in
  G0 ← get state "G";
  ctx ← get state "ctx";
  let canPlayerMakeMove :=
    canPlayerMakeMove (flow (game this)) G0 ctx (playerID this) in
  let isActive :=
    if truthy (multiplayer this) && negb (truthy canPlayerMakeMove)
    then false else isActive in
  let isActive :=
    if negb (truthy (multiplayer this))
       && negb (is_null (playerID this))
       && negb (is_undefined (playerID this))
       && negb (truthy canPlayerMakeMove)
    then false else isActive in
  gameover ← get ctx "gameover";
  let isActive := if negb (is_undefined gameover) then false else isActive in
  let G := playerView (game this) G0 ctx (playerID this) in
  let ret :=
    with_prop
      (with_prop
         (with_prop (spread_props state) "isActive" (JBool isActive))
         "G" G)
      "log" (log (heap this)) in
  match multiplayerClient this with
  | Some mc =>
      let isConnected := transport_isConnected mc in
      Normal (JObj (with_prop (spread_props (JObj ret))
                      "isConnected" isConnected))
  | None => Normal (JObj ret)
  end.

(** [updatePlayerID(playerID)]. *)
Definition updatePlayerID (playerID' : jsval) (this : ClientImpl)
  : ClientImpl :=
  let this :=
    createDispatchers_method
      {| game := game this; playerID := playerID'; gameID := gameID this;
         credentials := credentials this; multiplayer := multiplayer this;
         reducer := reducer this; step := step this; store := store this;
         multiplayerClient := multiplayerClient this;
         moves := moves this; events := events this; heap := heap this |} in
  match multiplayerClient this with
  | Some mc =>
      {| game := game this; playerID := playerID this; gameID := gameID this;
         credentials := credentials this; multiplayer := multiplayer this;
         reducer := reducer this; step := step this; store := store this;
         multiplayerClient := Some (transport_updatePlayerID playerID' mc);
         moves := moves this; events := events this; heap := heap this |}
  | None => this
  end.

(** [updateGameID(gameID)]. *)
Definition updateGameID (gameID' : jsval) (this : ClientImpl) : ClientImpl :=
  let this :=
    createDispatchers_method
      {| game := game this; playerID := playerID this; gameID := gameID';
         credentials := credentials this; multiplayer := multiplayer this;
         reducer := reducer this; step := step this; store := store this;
         multiplayerClient := multiplayerClient this;
         moves := moves this; events := events this; heap := heap this |} in
  match multiplayerClient this with
  | Some mc =>
      {| game := game this; playerID := playerID this; gameID := gameID this;
         credentials := credentials this; multiplayer := multiplayer this;
         reducer := reducer this; step := step this; store := store this;
         multiplayerClient := Some (transport_updateGameID gameID' mc);
         moves := moves this; events := events this; heap := heap this |}
  | None => this
  end.

(** [updateCredentials(credentials)]. *)
Definition updateCredentials (credentials' : jsval) (this : ClientImpl)
  : ClientImpl :=
  createDispatchers_method
    {| game := game this; playerID := playerID this; gameID := gameID this;
       credentials := credentials'; multiplayer := multiplayer this;
       reducer := reducer this; step := step this; store := store this;
       multiplayerClient := multiplayerClient this;
       moves := moves this; events := events this; heap := heap this |}.

End Client.

(** A sequence of dispatches, each started on the heap the previous one
    left (a caller may catch what a dispatch throws and go on). *)
Fixpoint dispatch_all (Actions : ActionTypes) (store : Store)
    (actions : list jsval) (h : Heap) : Heap :=
  match actions with
  | [] => h
  | action :: rest =>
      dispatch_all Actions store rest (store_dispatch Actions store action h).2
  end.

(** Whether an action is one of the two kinds that replace the log. *)
Definition replaces_log (Actions : ActionTypes) (action : jsval) : bool :=
  match get action "type" with
  | Normal type =>
      strict_eq_str type (RESET Actions) || strict_eq_str type (SYNC Actions)
  | Throw _ => false
  end.

(** ** Concrete collaborators, for evaluating the client on examples *)

Module Fixtures.

(** Action tags and creators in the shape the engine uses:
    [{type, payload: {type: name, args, playerID, credentials}}]. *)
Definition tags : ActionTypes :=
  {| MAKE_MOVE := "MAKE_MOVE"; GAME_EVENT := "GAME_EVENT"; RESET := "RESET";
     UPDATE := "UPDATE"; SYNC := "SYNC" |}.

Definition creators : ActionCreatorsT :=
  let payload name args playerID credentials :=
    JObj [("type", name); ("args", args); ("playerID", playerID);
          ("credentials", credentials)] in
  {| makeMove := λ name args playerID credentials,
       JObj [("type", JStr "MAKE_MOVE");
             ("payload", payload name args playerID credentials)];
     gameEvent := λ name args playerID credentials,
       JObj [("type", JStr "GAME_EVENT");
             ("payload", payload name args playerID credentials)];
     reset := JObj [("type", JStr "RESET")];
     undo := JObj [("type", JStr "UNDO")];
     redo := JObj [("type", JStr "REDO")] |}.

(** A reducer that keeps [G] and [ctx] and reports the action itself as the
    single entry of its deltalog. *)
Definition echo_reducer : Reducer := λ state action,
  JObj [("G", default JUndefined (assoc "G" (spread_props state)));
        ("ctx", default JUndefined (assoc "ctx" (spread_props state)));
        ("deltalog", JArr [action])].

(** A reducer that returns its state unchanged, so a state without a
    [deltalog] stays without one. *)
Definition idle_reducer : Reducer := λ state _, state.

(** A plain local store around a reducer: dispatch returns the action. *)
Definition local_store (reducer : Reducer) : Store :=
  {| next := λ action state, (Normal action, reducer state action) |}.

Definition store0 : Store := local_store echo_reducer.

(** A transport that records the identity it was last given. *)
Record Socket : Type := {
  socket_gameID : jsval;
  socket_playerID : jsval;
  socket_connected : bool;
}.

Global Instance Socket_transport : Transport Socket := {|
  new_Multiplayer gameID playerID _ _ _ _ :=
    {| socket_gameID := gameID; socket_playerID := playerID;
       socket_connected := false |};
  transport_isConnected t := JBool (socket_connected t);
  transport_updatePlayerID playerID t :=
    {| socket_gameID := socket_gameID t; socket_playerID := playerID;
       socket_connected := socket_connected t |};
  transport_updateGameID gameID t :=
    {| socket_gameID := gameID; socket_playerID := socket_playerID t;
       socket_connected := socket_connected t |};
|}.

(** A two-move game in which only player ["0"] may move; a player's view
    of [G] is tagged with the player it was made for. *)
Definition game0 : Game :=
  {| name := JStr "g";
     moveNames := ["draw"; "play"];
     flow := {| eventNames := ["endTurn"];
                canPlayerMakeMove := λ _ _ playerID,
                  JBool (strict_eq_str playerID "0") |};
     playerView := λ G _ playerID, JObj [("seenBy", playerID); ("G", G)] |}.

(** A strategy that always proposes the move [draw] for the player asked. *)
Definition draw_bot : Bot :=
  {| play := λ _ playerID,
       JObj [("action",
              makeMove creators (JStr "draw") (JArr []) playerID JUndefined);
             ("metadata", JStr "m")] |}.

Definition draw_ai : AI := {| bot := λ _ _, draw_bot; enumerate := JUndefined |}.

(** A store state in the middle of a game, and one after its end. *)
Definition ctx0 : jsval :=
  JObj [("currentPlayer", JStr "1"); ("actionPlayers", JArr [JStr "1"])].
Definition state0 : jsval := JObj [("G", JNum 7); ("ctx", ctx0)].
Definition state_over : jsval :=
  JObj [("G", JNum 7);
        ("ctx", JObj [("currentPlayer", JStr "1"); ("gameover", JBool true)])].

(** A move by player ["0"], and the same heap with and without a log entry. *)
Definition draw_action : jsval :=
  makeMove creators (JStr "draw") (JArr [JNum 1]) (JStr "0") JUndefined.
Definition heap0 : Heap := {| store_state := state0; log := JArr [] |}.
Definition heap1 : Heap := {| store_state := state0; log := JArr [JStr "e0"] |}.

(** What a remote peer sends: a full log, a full sync without a log, a
    delta, a delta without entries. *)
Definition sync_action : jsval :=
  JObj [("type", JStr "SYNC"); ("state", state0);
        ("log", JArr [JStr "a"; JStr "b"; JStr "c"])].
Definition bare_sync_action : jsval :=
  JObj [("type", JStr "SYNC"); ("state", state0)].
Definition update_action : jsval :=
  JObj [("type", JStr "UPDATE"); ("state", state0);
        ("deltalog", JArr [JStr "d1"; JStr "d2"])].
Definition bare_update_action : jsval :=
  JObj [("type", JStr "UPDATE"); ("state", state0)].

(** A store state that carries [log] and [deltalog] fields of its own. *)
Definition state_logged : jsval :=
  JObj [("G", JNum 7); ("ctx", ctx0); ("log", JArr [JStr "s"]);
        ("deltalog", JArr [JStr "t"])].

(** Store creation for the examples: a local store over the reducer, started
    in [state0]; no enhancers. *)
Definition createStore0 (reducer : Reducer) (_ : option Empty_set)
  : Store * jsval := (local_store reducer, state0).
Definition transport_createStore0 (_ : Socket) (reducer : Reducer)
    (_ : option Empty_set) : Store * jsval := (local_store reducer, state0).
Definition CreateGameReducer0 (_ : Game) (_ _ : jsval) : Reducer :=
  echo_reducer.

Definition opts0 (ai : option AI) (multiplayer playerID : jsval)
  : ClientOpts (Enhancer := Empty_set) :=
  {| opts_game := game0; opts_ai := ai; opts_numPlayers := JNum 2;
     opts_multiplayer := multiplayer; opts_socketOpts := JUndefined;
     opts_gameID := JStr "default"; opts_playerID := playerID;
     opts_credentials := JUndefined; opts_enhancer := None |}.

(** [Client(opts0 ...)] with these collaborators. *)
Definition client0 (ai : option AI) (multiplayer playerID : jsval)
  : completion (ClientImpl (T := Socket)) :=
  new_ClientImpl tags creators createStore0 transport_createStore0
    CreateGameReducer0 (opts0 ai multiplayer playerID).

(** A client over [store0] with the given mode, identity, transport and
    heap, its dispatchers built. *)
Definition client (multiplayer playerID : jsval) (mc : option Socket)
    (h : Heap) : ClientImpl (T := Socket) :=
  createDispatchers_method tags creators
    {| game := game0; playerID := playerID; gameID := JStr "default";
       credentials := JUndefined; multiplayer := multiplayer;
       reducer := echo_reducer; step := None; store := store0;
       multiplayerClient := mc; moves := ∅; events := ∅; heap := h |}.

(** [heap0] with player ["0"] to move. *)
Definition heap_turn0 : Heap :=
  {| store_state :=
       JObj [("G", JNum 7);
             ("ctx", JObj [("currentPlayer", JStr "0");
                           ("actionPlayers", JArr [JStr "0"])])];
     log := JArr [] |}.

Definition heap_over : Heap := {| store_state := state_over; log := JArr [] |}.
Definition heap_logged : Heap :=
  {| store_state := state_logged; log := JArr [JStr "e0"] |}.
Definition socket0 : Socket :=
  {| socket_gameID := JStr "default"; socket_playerID := JStr "0";
     socket_connected := true |}.

(** What [step] dispatches and returns with [draw_bot] on [heap0]: the
    proposed move of player ["1"], its payload carrying the metadata. *)
Definition stepped_action : jsval :=
  JObj [("type", JStr "MAKE_MOVE");
        ("payload",
         JObj [("type", JStr "draw"); ("args", JArr []);
               ("playerID", JStr "1"); ("credentials", JUndefined);
               ("metadata", JStr "m")])].

End Fixtures.

(** ** Notions for the properties of sequences of calls *)

(** [Array.isArray(v)]. *)
Definition is_array (v : jsval) : bool :=
  match v with JArr _ => true | _ => false end.

(** Whether an action, if it is a sync, carries a [log] that is an array or
    is falsy (absent, [null], ...): the logs a peer sends. *)
Definition carries_array_log (Actions : ActionTypes) (action : jsval) : bool :=
  match get action "type" with
  | Normal type =>
      if strict_eq_str type (SYNC Actions) then
        match get action "log" with
        | Normal l => is_array l || negb (truthy l)
        | Throw _ => true
        end
      else true
  | Throw _ => true
  end.

(** The identity a dispatcher resolves on a store state (the first lines of
    a dispatcher's body). *)
Definition assumed_playerID (playerID multiplayer state : jsval)
  : completion jsval :=
  if negb (truthy multiplayer) && (is_null playerID || is_undefined playerID)
  then ctx ← get state "ctx"; get ctx "currentPlayer"
  else Normal playerID.


Section Mutations.

Context (Actions : ActionTypes) (ActionCreators : ActionCreatorsT).
Context {T : Type} `{!Transport T}.



(** [this.moves] and [this.events] are the sets [createDispatchers] builds
    from the client's fields as they are now. *)
Definition dispatchers_current (this : ClientImpl (T := T)) : Prop :=
  moves this =
    createMoveDispatchers Actions ActionCreators (moveNames (game this))
      (store this) (playerID this) (credentials this) (multiplayer this)
  ∧ events this =
    createEventDispatchers Actions ActionCreators
      (eventNames (flow (game this))) (store this) (playerID this)
      (credentials this) (multiplayer this).

End Mutations.

(** More store states and heaps for the examples. *)
Module Cases.

(** A store state with no [ctx], and one whose [ctx] has no
    [actionPlayers]. *)
Definition heap_no_ctx : Heap :=
  {| store_state := JObj [("G", JNum 7)]; log := JArr [JStr "e0"] |}.
Definition heap_no_players : Heap :=
  {| store_state :=
       JObj [("G", JNum 7); ("ctx", JObj [("currentPlayer", JStr "1")])];
     log := JArr [JStr "e0"] |}.

(** A store state with fields of its own besides [G] and [ctx]. *)
Definition heap_rich : Heap :=
  {| store_state :=
       JObj [("G", JNum 7); ("ctx", Fixtures.ctx0); ("_stateID", JNum 3);
             ("isActive", JStr "stale"); ("log", JArr [JStr "s"])];
     log := JArr [JStr "e0"] |}.

(** A strategy whose action has no payload, and one that fills in every
    field, a stale [metadata] included. *)
Definition bare_bot : Bot :=
  {| play := λ _ _,
       JObj [("action", JObj [("type", JStr "MAKE_MOVE")]);
             ("metadata", JStr "m")] |}.
Definition full_bot : Bot :=
  {| play := λ _ playerID,
       JObj [("action",
              JObj [("type", JStr "MAKE_MOVE");
                    ("payload", JObj [("type", JStr "draw");
                                      ("metadata", JStr "stale");
                                      ("playerID", playerID)])]);
             ("metadata", JStr "m")] |}.

(** Constructor options with a socket server address. *)
Definition opts_server : ClientOpts (Enhancer := Empty_set) :=
  Fixtures.opts0 None (JObj [("server", JStr "host:8000")]) JNull.

End Cases.

(** * Properties *)

(** ** Property lists *)

Lemma assoc_set_eq {A : Type} (k : string) (v : A) ps :
  assoc k (assoc_set k v ps) = Some v.
Proof.
  induction ps as [|[k' v'] ps IH]; simpl.
  - by rewrite String.eqb_refl.
  - destruct (String.eqb k' k) eqn:E; simpl; by rewrite E.
Qed.

Lemma assoc_set_ne {A : Type} (k k' : string) (v : A) ps :
  k ≠ k' → assoc k' (assoc_set k v ps) = assoc k' ps.
Proof.
  intros Hne. induction ps as [|[k0 v0] ps IH]; simpl.
  - destruct (String.eqb_spec k k'); [done|reflexivity].
  - destruct (String.eqb_spec k0 k) as [->|Hk]; simpl.
    + destruct (String.eqb_spec k k'); [done|reflexivity].
    + by rewrite IH.
Qed.

Lemma strict_eq_str_true v s : strict_eq_str v s = true ↔ v = JStr s.
Proof.
  destruct v; simpl; try (split; [discriminate|intros [=]]).
  rewrite String.eqb_eq. split; [by intros ->|by intros [= ->]].
Qed.

Lemma strict_eq_str_refl s : strict_eq_str (JStr s) s = true.
Proof. by apply strict_eq_str_true. Qed.

Lemma strict_eq_str_ne s t : s ≠ t → strict_eq_str (JStr s) t = false.
Proof. intros Hne. simpl. by apply String.eqb_neq. Qed.

(** ** The log middleware, branch by branch *)

Section LogMiddleware.

Context (Actions : ActionTypes) (store : Store).

(** What the middleware does once the wrapped dispatch has returned. *)
Lemma LogMiddleware_after_next action h r s type :
  next store action (store_state h) = (Normal r, s) →
  get action "type" = Normal type →
  LogMiddleware Actions store action h =
    let h1 := {| store_state := s; log := log h |} in
    match
      (if strict_eq_str type (MAKE_MOVE Actions)
          || strict_eq_str type (GAME_EVENT Actions) then
         deltalog ← lift (get s "deltalog");
         l1 ← lift (spread (log h));
         l2 ← lift (spread deltalog);
         set_this_log (JArr (l1 ++ l2))
       else if strict_eq_str type (RESET Actions) then
         set_this_log (JArr [])
       else if strict_eq_str type (UPDATE Actions) then
         d ← lift (get action "deltalog");
         l1 ← lift (spread (log h));
         l2 ← lift (spread (js_or d (JArr [])));
         set_this_log (JArr (l1 ++ l2))
       else if strict_eq_str type (SYNC Actions) then
         l ← lift (get action "log");
         set_this_log (js_or l (JArr []))
       else mret ()) h1
    with
    | (Normal _, h2) => (Normal r, h2)
    | (Throw e, h2) => (Throw e, h2)
    end.
Proof.
  intros Hnext Htype.
  unfold LogMiddleware, mbind, M_bind, store_next, store_getState.
  rewrite Hnext, Htype. cbn.
  destruct (strict_eq_str type (MAKE_MOVE Actions)
            || strict_eq_str type (GAME_EVENT Actions)); [reflexivity|].
  destruct (strict_eq_str type (RESET Actions)); [reflexivity|].
  destruct (strict_eq_str type (UPDATE Actions)); [reflexivity|].
  destruct (strict_eq_str type (SYNC Actions)); reflexivity.
Qed.

(** A wrapped dispatch that throws leaves the log alone. *)
Lemma LogMiddleware_next_throws action h e s :
  next store action (store_state h) = (Throw e, s) →
  LogMiddleware Actions store action h =
    (Throw e, {| store_state := s; log := log h |}).
Proof.
  intros Hnext. unfold LogMiddleware, mbind, M_bind, store_next.
  by rewrite Hnext.
Qed.

(** The tags, pairwise. *)
Lemma distinct_tags_ne :
  distinct_tags Actions →
  MAKE_MOVE Actions ≠ RESET Actions ∧ GAME_EVENT Actions ≠ RESET Actions
  ∧ MAKE_MOVE Actions ≠ UPDATE Actions ∧ GAME_EVENT Actions ≠ UPDATE Actions
  ∧ RESET Actions ≠ UPDATE Actions
  ∧ MAKE_MOVE Actions ≠ SYNC Actions ∧ GAME_EVENT Actions ≠ SYNC Actions
  ∧ RESET Actions ≠ SYNC Actions ∧ UPDATE Actions ≠ SYNC Actions.
Proof.
  unfold distinct_tags. rewrite !NoDup_cons, !not_elem_of_cons. intuition.
Qed.

Lemma dispatch_move_or_event action h r s type :
  next store action (store_state h) = (Normal r, s) →
  get action "type" = Normal type →
  strict_eq_str type (MAKE_MOVE Actions)
    || strict_eq_str type (GAME_EVENT Actions) = true →
  LogMiddleware Actions store action h =
    let h1 := {| store_state := s; log := log h |} in
    match get s "deltalog" with
    | Normal deltalog =>
        match spread (log h) with
        | Normal l1 =>
            match spread deltalog with
            | Normal l2 =>
                (Normal r, {| store_state := s; log := JArr (l1 ++ l2) |})
            | Throw e => (Throw e, h1)
            end
        | Throw e => (Throw e, h1)
        end
    | Throw e => (Throw e, h1)
    end.
Proof.
  intros Hnext Htype Hcase.
  rewrite (LogMiddleware_after_next _ _ _ _ _ Hnext Htype).
  cbn zeta. rewrite Hcase. unfold mbind, M_bind, lift.
  destruct (get s "deltalog") as [deltalog|]; [|done]. cbn.
  destruct (spread (log h)); [|done].
  by destruct (spread deltalog).
Qed.

Lemma dispatch_reset action h r s :
  distinct_tags Actions →
  next store action (store_state h) = (Normal r, s) →
  get action "type" = Normal (JStr (RESET Actions)) →
  LogMiddleware Actions store action h =
    (Normal r, {| store_state := s; log := JArr [] |}).
Proof.
  intros (? & ? & _)%distinct_tags_ne Hnext Htype.
  rewrite (LogMiddleware_after_next _ _ _ _ _ Hnext Htype). cbn zeta.
  rewrite !strict_eq_str_ne, strict_eq_str_refl by done. done.
Qed.

Lemma dispatch_update action h r s d :
  distinct_tags Actions →
  next store action (store_state h) = (Normal r, s) →
  get action "type" = Normal (JStr (UPDATE Actions)) →
  get action "deltalog" = Normal d →
  LogMiddleware Actions store action h =
    let h1 := {| store_state := s; log := log h |} in
    match spread (log h) with
    | Normal l1 =>
        match spread (js_or d (JArr [])) with
        | Normal l2 =>
            (Normal r, {| store_state := s; log := JArr (l1 ++ l2) |})
        | Throw e => (Throw e, h1)
        end
    | Throw e => (Throw e, h1)
    end.
Proof.
  intros (? & ? & ? & ? & ? & _)%distinct_tags_ne Hnext Htype Hd.
  rewrite (LogMiddleware_after_next _ _ _ _ _ Hnext Htype). cbn zeta.
  rewrite !strict_eq_str_ne, strict_eq_str_refl by done.
  unfold mbind, M_bind, lift. rewrite Hd. cbn.
  destruct (spread (log h)); [|done].
  by destruct (spread (js_or d (JArr []))).
Qed.

Lemma dispatch_sync action h r s l :
  distinct_tags Actions →
  next store action (store_state h) = (Normal r, s) →
  get action "type" = Normal (JStr (SYNC Actions)) →
  get action "log" = Normal l →
  LogMiddleware Actions store action h =
    (Normal r, {| store_state := s; log := js_or l (JArr []) |}).
Proof.
  intros (? & ? & ? & ? & ? & ? & ? & ? & ?)%distinct_tags_ne Hnext Htype Hl.
  rewrite (LogMiddleware_after_next _ _ _ _ _ Hnext Htype). cbn zeta.
  rewrite !strict_eq_str_ne, strict_eq_str_refl by done.
  unfold mbind, M_bind, lift. by rewrite Hl.
Qed.

Lemma dispatch_other action h r s type :
  next store action (store_state h) = (Normal r, s) →
  get action "type" = Normal type →
  type ≠ JStr (MAKE_MOVE Actions) → type ≠ JStr (GAME_EVENT Actions) →
  type ≠ JStr (RESET Actions) → type ≠ JStr (UPDATE Actions) →
  type ≠ JStr (SYNC Actions) →
  LogMiddleware Actions store action h =
    (Normal r, {| store_state := s; log := log h |}).
Proof.
  intros Hnext Htype H1 H2 H3 H4 H5.
  rewrite (LogMiddleware_after_next _ _ _ _ _ Hnext Htype). cbn zeta.
  rewrite <- strict_eq_str_true in H1, H2, H3, H4, H5.
  apply not_true_is_false in H1, H2, H3, H4, H5.
  by rewrite H1, H2, H3, H4, H5.
Qed.

(** Reading [action.type] from [undefined] or [null] throws after the
    wrapped dispatch has run; the log is as it was. *)
Lemma LogMiddleware_type_throws action h r s e :
  next store action (store_state h) = (Normal r, s) →
  get action "type" = Throw e →
  LogMiddleware Actions store action h =
    (Throw e, {| store_state := s; log := log h |}).
Proof.
  intros Hnext Htype.
  unfold LogMiddleware, mbind, M_bind, store_next, store_getState, lift.
  by rewrite Hnext, Htype.
Qed.

(** One dispatch of anything but a reset or a sync keeps every entry of the
    log, in place, whether it returns or throws. *)
Lemma dispatch_keeps_entries action h m :
  replaces_log Actions action = false →
  log h = JArr m →
  ∃ d, log (store_dispatch Actions store action h).2 = JArr (m ++ d).
Proof.
  intros Hkind Hlog. unfold store_dispatch.
  pose proof (app_nil_r m) as Hnil.
  destruct (next store action (store_state h)) as [[r|e] s] eqn:Hnext;
    [|rewrite (LogMiddleware_next_throws _ _ _ _ Hnext); exists []; cbn;
      congruence].
  unfold replaces_log in Hkind.
  destruct (get action "type") as [type|e] eqn:Htype;
    [|rewrite (LogMiddleware_type_throws _ _ _ _ _ Hnext Htype); exists [];
      cbn; congruence].
  apply orb_false_iff in Hkind as [Hreset Hsync].
  rewrite (LogMiddleware_after_next _ _ _ _ _ Hnext Htype). cbn zeta.
  rewrite Hreset, Hsync. unfold mbind, M_bind, lift.
  destruct (_ || _).
  { destruct (get s "deltalog") as [deltalog|]; cbn;
      [|exists []; congruence].
    rewrite Hlog; cbn.
    destruct (spread deltalog) as [l2|]; cbn;
      [by exists l2|exists []; congruence]. }
  destruct (strict_eq_str type (UPDATE Actions));
    [|exists []; cbn; congruence].
  destruct (get action "deltalog") as [d|]; cbn; [|exists []; congruence].
  rewrite Hlog; cbn.
  destruct (spread (js_or d (JArr []))) as [l2|]; cbn;
    [by exists l2|exists []; congruence].
Qed.

Lemma dispatch_all_keeps_entries actions h m :
  Forall (λ action, replaces_log Actions action = false) actions →
  log h = JArr m →
  ∃ d, log (dispatch_all Actions store actions h) = JArr (m ++ d).
Proof.
  intros Hall. revert h m.
  induction Hall as [|action actions Hkind _ IH]; intros h m Hlog; simpl.
  - exists []. by rewrite app_nil_r.
  - destruct (dispatch_keeps_entries action h m Hkind Hlog) as [d1 Hd1].
    destruct (IH _ _ Hd1) as [d2 Hd2].
    exists (d1 ++ d2)%list. by rewrite Hd2, app_assoc.
Qed.

End LogMiddleware.

(** ** Claims about the log middleware *)

(** C1. Dispatching a make-move or game-event action whose wrapped dispatch
    returns, from a log holding the entries [m] and into a state whose
    [deltalog] holds the entries [d], returns what the wrapped dispatch
    returned and leaves the log holding exactly [m ++ d]: the prior entries,
    then the deltalog's entries in order, none lost and none repeated. *)
Theorem C1_move_or_event_appends_deltalog
    (Actions : ActionTypes) (store : Store) (action : jsval) (h : Heap)
    (r s : jsval) (m d : list jsval) :
  get action "type" = Normal (JStr (MAKE_MOVE Actions))
    ∨ get action "type" = Normal (JStr (GAME_EVENT Actions)) →
  next store action (store_state h) = (Normal r, s) →
  log h = JArr m →
  get s "deltalog" = Normal (JArr d) →
  store_dispatch Actions store action h =
    (Normal r, {| store_state := s; log := JArr (m ++ d) |})
  ∧ length (m ++ d) = length m + length d.
Proof.
  intros Htype Hnext Hlog Hdelta. split; [|apply length_app].
  unfold store_dispatch.
  assert (∃ type, get action "type" = Normal type
            ∧ strict_eq_str type (MAKE_MOVE Actions)
              || strict_eq_str type (GAME_EVENT Actions) = true)
    as (type & Hget & Hcase).
  { destruct Htype as [Ht|Ht]; eexists; (split; [exact Ht|]);
      rewrite strict_eq_str_refl; [done|by rewrite orb_true_r]. }
  rewrite (LogMiddleware_after_next _ _ _ _ _ _ _ Hnext Hget).
  cbn zeta. rewrite Hcase.
  unfold mbind, M_bind, lift. rewrite Hdelta; cbn. by rewrite Hlog.
Qed.

Lemma C1_move_or_event_appends_deltalog_witness :
  store_dispatch Fixtures.tags (Fixtures.local_store Fixtures.echo_reducer)
    Fixtures.draw_action Fixtures.heap1 =
    (Normal Fixtures.draw_action,
     {| store_state :=
          Fixtures.echo_reducer Fixtures.state0 Fixtures.draw_action;
        log := JArr ([JStr "e0"] ++ [Fixtures.draw_action]) |})
  ∧ length ([JStr "e0"] ++ [Fixtures.draw_action]) =
    length [JStr "e0"] + length [Fixtures.draw_action].
Proof.
  apply (C1_move_or_event_appends_deltalog Fixtures.tags
           (Fixtures.local_store Fixtures.echo_reducer)
           Fixtures.draw_action Fixtures.heap1);
    [left; reflexivity | reflexivity | reflexivity | reflexivity].
Defined.

(** C2. Whatever the log held before, dispatching a sync action whose [log]
    field holds the entries [L] leaves the log holding exactly [L], and
    dispatching a sync action with no [log] field leaves it empty. *)
Theorem C2_sync_replaces_log
    (Actions : ActionTypes) (store : Store) (action : jsval) (h : Heap)
    (r s : jsval) :
  distinct_tags Actions →
  get action "type" = Normal (JStr (SYNC Actions)) →
  next store action (store_state h) = (Normal r, s) →
  (∀ L, get action "log" = Normal (JArr L) →
     store_dispatch Actions store action h =
       (Normal r, {| store_state := s; log := JArr L |}))
  ∧ (get action "log" = Normal JUndefined →
     store_dispatch Actions store action h =
       (Normal r, {| store_state := s; log := JArr [] |})).
Proof.
  intros Htags Htype Hnext. unfold store_dispatch.
  split; [intros L Hl|intros Hl];
    by rewrite (dispatch_sync _ _ _ _ _ _ _ Htags Hnext Htype Hl).
Qed.

Lemma C2_sync_replaces_log_witness :
  store_dispatch Fixtures.tags (Fixtures.local_store Fixtures.echo_reducer)
    Fixtures.sync_action Fixtures.heap1 =
    (Normal Fixtures.sync_action,
     {| store_state :=
          Fixtures.echo_reducer Fixtures.state0 Fixtures.sync_action;
        log := JArr [JStr "a"; JStr "b"; JStr "c"] |}).
Proof.
  apply (C2_sync_replaces_log Fixtures.tags
           (Fixtures.local_store Fixtures.echo_reducer)
           Fixtures.sync_action Fixtures.heap1);
    [unfold distinct_tags; compute_done | reflexivity | reflexivity
    | reflexivity].
Defined.

(** C3. (1) Over any sequence of dispatches none of which is a reset or a
    sync, every entry the log held at the start is still there, in place, at
    the end.  (2) A reset empties the log whatever it held.  (3) An update
    whose [deltalog] holds the entries [D] leaves the prior entries followed
    by [D], and an update without a [deltalog] leaves the log as it was.
    (4) An action of any other kind leaves the log as it was. *)
Theorem C3_log_only_shrinks_on_reset_or_sync
    (Actions : ActionTypes) (store : Store) :
  distinct_tags Actions →
  (∀ actions h m,
     Forall (λ action, replaces_log Actions action = false) actions →
     log h = JArr m →
     ∃ d, log (dispatch_all Actions store actions h) = JArr (m ++ d))
  ∧ (∀ action h r s,
       get action "type" = Normal (JStr (RESET Actions)) →
       next store action (store_state h) = (Normal r, s) →
       store_dispatch Actions store action h =
         (Normal r, {| store_state := s; log := JArr [] |}))
  ∧ (∀ action h r s m D,
       get action "type" = Normal (JStr (UPDATE Actions)) →
       next store action (store_state h) = (Normal r, s) →
       log h = JArr m →
       get action "deltalog" = Normal (JArr D) →
       store_dispatch Actions store action h =
         (Normal r, {| store_state := s; log := JArr (m ++ D) |}))
  ∧ (∀ action h r s m,
       get action "type" = Normal (JStr (UPDATE Actions)) →
       next store action (store_state h) = (Normal r, s) →
       log h = JArr m →
       get action "deltalog" = Normal JUndefined →
       store_dispatch Actions store action h =
         (Normal r, {| store_state := s; log := JArr m |}))
  ∧ (∀ action h r s type,
       get action "type" = Normal type →
       type ∉ [JStr (MAKE_MOVE Actions); JStr (GAME_EVENT Actions);
               JStr (RESET Actions); JStr (UPDATE Actions);
               JStr (SYNC Actions)] →
       next store action (store_state h) = (Normal r, s) →
       store_dispatch Actions store action h =
         (Normal r, {| store_state := s; log := log h |})).
Proof.
  intros Htags. unfold store_dispatch. repeat split.
  - apply dispatch_all_keeps_entries.
  - intros action h r s Htype Hnext. by apply dispatch_reset.
  - intros action h r s m D Htype Hnext Hlog Hd.
    rewrite (dispatch_update _ _ _ _ _ _ _ Htags Hnext Htype Hd).
    by rewrite Hlog.
  - intros action h r s m Htype Hnext Hlog Hd.
    rewrite (dispatch_update _ _ _ _ _ _ _ Htags Hnext Htype Hd).
    rewrite Hlog. cbn. by rewrite app_nil_r.
  - intros action h r s type Htype Hother Hnext.
    rewrite !not_elem_of_cons in Hother.
    apply (dispatch_other _ _ _ _ _ _ _ Hnext Htype); tauto.
Qed.

Lemma C3_log_only_shrinks_on_reset_or_sync_witness :
  (∃ d, log (dispatch_all Fixtures.tags Fixtures.store0
               [Fixtures.draw_action; Fixtures.update_action;
                undo Fixtures.creators] Fixtures.heap1)
        = JArr ([JStr "e0"] ++ d))
  ∧ store_dispatch Fixtures.tags Fixtures.store0 (reset Fixtures.creators)
      Fixtures.heap1 =
      (Normal (reset Fixtures.creators),
       {| store_state :=
            Fixtures.echo_reducer Fixtures.state0 (reset Fixtures.creators);
          log := JArr [] |})
  ∧ store_dispatch Fixtures.tags Fixtures.store0 Fixtures.update_action
      Fixtures.heap1 =
      (Normal Fixtures.update_action,
       {| store_state :=
            Fixtures.echo_reducer Fixtures.state0 Fixtures.update_action;
          log := JArr ([JStr "e0"] ++ [JStr "d1"; JStr "d2"]) |})
  ∧ store_dispatch Fixtures.tags Fixtures.store0 Fixtures.bare_update_action
      Fixtures.heap1 =
      (Normal Fixtures.bare_update_action,
       {| store_state :=
            Fixtures.echo_reducer Fixtures.state0
              Fixtures.bare_update_action;
          log := JArr [JStr "e0"] |})
  ∧ store_dispatch Fixtures.tags Fixtures.store0 (undo Fixtures.creators)
      Fixtures.heap1 =
      (Normal (undo Fixtures.creators),
       {| store_state :=
            Fixtures.echo_reducer Fixtures.state0 (undo Fixtures.creators);
          log := JArr [JStr "e0"] |}).
Proof.
  destruct (C3_log_only_shrinks_on_reset_or_sync Fixtures.tags
              Fixtures.store0)
    as (Hseq & Hreset & Hupdate & Hbare & Hother);
    [unfold distinct_tags; compute_done|].
  refine (conj _ (conj _ (conj _ (conj _ _)))).
  - apply Hseq; [|reflexivity]. repeat constructor.
  - apply Hreset; reflexivity.
  - apply Hupdate; reflexivity.
  - apply Hbare; reflexivity.
  - eapply Hother; [reflexivity| |reflexivity].
    rewrite !not_elem_of_cons. repeat split; try discriminate.
    apply not_elem_of_nil.
Defined.

(** C10. A make-move or game-event dispatch that leaves a state without a
    [deltalog] field throws a [TypeError] after the state has changed, and
    the log stays what it was; an update without a [deltalog] and a sync
    without a [log] complete, the first leaving the log as it was and the
    second leaving it empty. *)
Theorem C10_missing_deltalog_throws
    (Actions : ActionTypes) (store : Store) (action : jsval) (h : Heap)
    (r s : jsval) :
  distinct_tags Actions →
  next store action (store_state h) = (Normal r, s) →
  (get action "type" = Normal (JStr (MAKE_MOVE Actions))
     ∨ get action "type" = Normal (JStr (GAME_EVENT Actions)) →
   get s "deltalog" = Normal JUndefined →
   store_dispatch Actions store action h =
     (Throw TypeError, {| store_state := s; log := log h |}))
  ∧ (get action "type" = Normal (JStr (UPDATE Actions)) →
     get action "deltalog" = Normal JUndefined →
     ∀ m, log h = JArr m →
     store_dispatch Actions store action h =
       (Normal r, {| store_state := s; log := JArr m |}))
  ∧ (get action "type" = Normal (JStr (SYNC Actions)) →
     get action "log" = Normal JUndefined →
     store_dispatch Actions store action h =
       (Normal r, {| store_state := s; log := JArr [] |})).
Proof.
  intros Htags Hnext. unfold store_dispatch.
  refine (conj _ (conj _ _)).
  - intros Htype Hdelta.
    assert (∃ type, get action "type" = Normal type
              ∧ strict_eq_str type (MAKE_MOVE Actions)
                || strict_eq_str type (GAME_EVENT Actions) = true)
      as (type & Hget & Hcase).
    { destruct Htype as [Ht|Ht]; eexists; (split; [exact Ht|]);
        rewrite strict_eq_str_refl; [done|by rewrite orb_true_r]. }
    rewrite (dispatch_move_or_event _ _ _ _ _ _ _ Hnext Hget Hcase).
    cbn zeta. rewrite Hdelta.
    by destruct (log h).
  - intros Htype Hd m Hlog.
    rewrite (dispatch_update _ _ _ _ _ _ _ Htags Hnext Htype Hd).
    rewrite Hlog. cbn. by rewrite app_nil_r.
  - intros Htype Hl.
    by rewrite (dispatch_sync _ _ _ _ _ _ _ Htags Hnext Htype Hl).
Qed.

Lemma C10_missing_deltalog_throws_witness :
  store_dispatch Fixtures.tags (Fixtures.local_store Fixtures.idle_reducer)
    Fixtures.draw_action Fixtures.heap1 =
    (Throw TypeError, Fixtures.heap1)
  ∧ store_dispatch Fixtures.tags (Fixtures.local_store Fixtures.idle_reducer)
      Fixtures.bare_update_action Fixtures.heap1 =
      (Normal Fixtures.bare_update_action, Fixtures.heap1)
  ∧ store_dispatch Fixtures.tags (Fixtures.local_store Fixtures.idle_reducer)
      Fixtures.bare_sync_action Fixtures.heap1 =
      (Normal Fixtures.bare_sync_action, Fixtures.heap0).
Proof.
  assert (Htags : distinct_tags Fixtures.tags)
    by (unfold distinct_tags; compute_done).
  refine (conj _ (conj _ _)).
  - apply (C10_missing_deltalog_throws Fixtures.tags
             (Fixtures.local_store Fixtures.idle_reducer)
             Fixtures.draw_action Fixtures.heap1 _ _ Htags eq_refl);
      [left; reflexivity | reflexivity].
  - refine (proj1 (proj2 (C10_missing_deltalog_throws Fixtures.tags
             (Fixtures.local_store Fixtures.idle_reducer)
             Fixtures.bare_update_action Fixtures.heap1 _ _ Htags eq_refl))
             _ _ [JStr "e0"] _); reflexivity.
  - apply (C10_missing_deltalog_throws Fixtures.tags
             (Fixtures.local_store Fixtures.idle_reducer)
             Fixtures.bare_sync_action Fixtures.heap1 _ _ Htags eq_refl);
      reflexivity.
Defined.

(** ** The state projection *)

Lemma get_with_prop_eq ps k v : get (JObj (assoc_set k v ps)) k = Normal v.
Proof. unfold get. by rewrite assoc_set_eq. Qed.

Lemma get_with_prop_ne ps k k' v :
  k ≠ k' → get (JObj (assoc_set k v ps)) k' = get (JObj ps) k'.
Proof. intros Hne. unfold get. by rewrite assoc_set_ne. Qed.

(** A state whose [ctx] can be read is an object, so its [G] can be read. *)
Lemma get_ctx_get_G state ctx :
  get state "ctx" = Normal ctx → ∃ G, get state "G" = Normal G.
Proof. destruct state; simpl; intros [=]; eauto. Qed.

Section Projection.

Context {T : Type} `{!Transport T}.

(** [getState] once [state.G], [state.ctx] and [ctx.gameover] are read: the
    object it returns has these [isActive], [G] and [log] fields. *)
Lemma getState_fields (this : ClientImpl (T := T)) (G0 ctx gameover : jsval) :
  get (store_state (heap this)) "G" = Normal G0 →
  get (store_state (heap this)) "ctx" = Normal ctx →
  get ctx "gameover" = Normal gameover →
  let can :=
    truthy (canPlayerMakeMove (flow (game this)) G0 ctx (playerID this)) in
  let isActive :=
    if negb (is_undefined gameover) then false
    else if negb (truthy (multiplayer this))
            && negb (is_null (playerID this))
            && negb (is_undefined (playerID this)) && negb can then false
    else if truthy (multiplayer this) && negb can then false
    else true in
  ∃ ret,
    getState this = Normal ret
    ∧ get ret "isActive" = Normal (JBool isActive)
    ∧ get ret "G" = Normal (playerView (game this) G0 ctx (playerID this))
    ∧ get ret "log" = Normal (log (heap this)).
Proof.
  intros HG Hctx Hover can isActive.
  unfold getState. rewrite HG; cbn. rewrite Hctx; cbn. rewrite Hover; cbn.
  destruct (multiplayerClient this) as [mc|]; eexists;
    (split; [reflexivity|]); unfold with_prop.
  - rewrite !(get_with_prop_ne _ "isConnected") by done.
    rewrite get_with_prop_eq, !(get_with_prop_ne _ "log") by done.
    rewrite get_with_prop_eq, !(get_with_prop_ne _ "G") by done.
    by rewrite get_with_prop_eq.
  - rewrite get_with_prop_eq, !(get_with_prop_ne _ "log") by done.
    rewrite get_with_prop_eq, !(get_with_prop_ne _ "G") by done.
    by rewrite get_with_prop_eq.
Qed.

End Projection.

(** ** Claims about [getState] *)

(** C4, as the specification states it, fails: a single-player client with
    no player id reports [isActive = false] once [ctx.gameover] is set. *)
Lemma C4_counterexample :
  truthy (multiplayer
            (Fixtures.client JUndefined JUndefined None Fixtures.heap_over))
    = false
  ∧ playerID (Fixtures.client JUndefined JUndefined None Fixtures.heap_over)
    = JUndefined
  ∧ (ret ← getState
             (Fixtures.client JUndefined JUndefined None Fixtures.heap_over);
     get ret "isActive") = Normal (JBool false).
Proof. repeat split. Qed.

(** C4, amended. In single-player mode (a falsy [multiplayer]) with no player
    id ([undefined] or [null]), [getState().isActive] is [true] for every
    store state whose [ctx.gameover] is [undefined], whatever
    [ctx.currentPlayer] is and whatever [canPlayerMakeMove] answers. *)
Theorem C4_single_player_unset_id_is_active
    {T : Type} `{!Transport T} (this : ClientImpl (T := T)) (ctx : jsval) :
  truthy (multiplayer this) = false →
  playerID this = JUndefined ∨ playerID this = JNull →
  get (store_state (heap this)) "ctx" = Normal ctx →
  get ctx "gameover" = Normal JUndefined →
  ∃ ret, getState this = Normal ret
         ∧ get ret "isActive" = Normal (JBool true).
Proof.
  intros Hsingle Hunset Hctx Hover.
  destruct (get_ctx_get_G _ _ Hctx) as [G0 HG].
  destruct (getState_fields this G0 ctx JUndefined HG Hctx Hover)
    as (ret & Hret & Hactive & _).
  exists ret. split; [done|]. rewrite Hactive, Hsingle.
  by destruct Hunset as [->| ->].
Qed.

Lemma C4_single_player_unset_id_is_active_witness :
  ∃ ret,
    getState (Fixtures.client JUndefined JUndefined None Fixtures.heap0)
      = Normal ret
    ∧ get ret "isActive" = Normal (JBool true).
Proof.
  apply (C4_single_player_unset_id_is_active
           (Fixtures.client JUndefined JUndefined None Fixtures.heap0)
           Fixtures.ctx0);
    [reflexivity | left; reflexivity | reflexivity | reflexivity].
Defined.

(** C5. In multiplayer mode, and in single-player mode with a concrete
    player id, [getState().isActive] is [false] when [ctx.gameover] is
    defined and otherwise the truth value of
    [canPlayerMakeMove(G, ctx, playerID)] on the current state: the boolean
    itself when [canPlayerMakeMove] answers with one. *)
Theorem C5_is_active_follows_canPlayerMakeMove
    {T : Type} `{!Transport T} (this : ClientImpl (T := T))
    (G0 ctx gameover : jsval) :
  truthy (multiplayer this) = true
    ∨ (truthy (multiplayer this) = false
       ∧ playerID this ≠ JNull ∧ playerID this ≠ JUndefined) →
  get (store_state (heap this)) "G" = Normal G0 →
  get (store_state (heap this)) "ctx" = Normal ctx →
  get ctx "gameover" = Normal gameover →
  ∃ ret,
    getState this = Normal ret
    ∧ get ret "isActive" =
        Normal (JBool
          (if is_undefined gameover
           then truthy (canPlayerMakeMove (flow (game this)) G0 ctx
                          (playerID this))
           else false))
    ∧ ∀ b : bool,
        canPlayerMakeMove (flow (game this)) G0 ctx (playerID this) = JBool b →
        get ret "isActive" =
          Normal (JBool (if is_undefined gameover then b else false)).
Proof.
  intros Hmode HG Hctx Hover.
  destruct (getState_fields this G0 ctx gameover HG Hctx Hover)
    as (ret & Hret & Hactive & _).
  exists ret. split; [done|].
  assert (get ret "isActive" =
            Normal (JBool
              (if is_undefined gameover
               then truthy (canPlayerMakeMove (flow (game this)) G0 ctx
                              (playerID this))
               else false))) as Hgoal.
  { rewrite Hactive. f_equal. f_equal.
    destruct (is_undefined gameover); [cbn|done].
    destruct Hmode as [->|(-> & Hnull & Hundef)]; cbn.
    - by destruct (truthy (canPlayerMakeMove _ _ _ _)).
    - destruct (playerID this); try done;
        by destruct (truthy (canPlayerMakeMove _ _ _ _)). }
  split; [done|]. intros b Hb. by rewrite Hgoal, Hb.
Qed.

Lemma C5_is_active_follows_canPlayerMakeMove_witness :
  (∃ ret,
     getState (Fixtures.client (JBool true) (JStr "1")
                 (Some Fixtures.socket0) Fixtures.heap0) = Normal ret
     ∧ get ret "isActive" = Normal (JBool false)
     ∧ ∀ b : bool, JBool false = JBool b →
         get ret "isActive" = Normal (JBool b))
  ∧ (∃ ret,
       getState (Fixtures.client JUndefined (JStr "0") None
                   Fixtures.heap_over) = Normal ret
       ∧ get ret "isActive" = Normal (JBool false)
       ∧ ∀ b : bool, JBool true = JBool b →
           get ret "isActive" = Normal (JBool false)).
Proof.
  split.
  - apply (C5_is_active_follows_canPlayerMakeMove
             (Fixtures.client (JBool true) (JStr "1")
                (Some Fixtures.socket0) Fixtures.heap0)
             (JNum 7) Fixtures.ctx0 JUndefined);
      [left; reflexivity | reflexivity | reflexivity | reflexivity].
  - apply (C5_is_active_follows_canPlayerMakeMove
             (Fixtures.client JUndefined (JStr "0") None Fixtures.heap_over)
             (JNum 7)
             (JObj [("currentPlayer", JStr "1"); ("gameover", JBool true)])
             (JBool true));
      [right; repeat split; discriminate | reflexivity | reflexivity
      | reflexivity].
Defined.

(** C7. Whatever the mode, the object [getState()] returns has
    [G = game.playerView(state.G, state.ctx, playerID)] and [log] equal to
    the client's log, whatever [log] or [deltalog] the store state itself
    carries. *)
Theorem C7_getState_filters_G_and_returns_log
    {T : Type} `{!Transport T} (this : ClientImpl (T := T))
    (G0 ctx gameover : jsval) :
  get (store_state (heap this)) "G" = Normal G0 →
  get (store_state (heap this)) "ctx" = Normal ctx →
  get ctx "gameover" = Normal gameover →
  ∃ ret,
    getState this = Normal ret
    ∧ get ret "G" = Normal (playerView (game this) G0 ctx (playerID this))
    ∧ get ret "log" = Normal (log (heap this)).
Proof.
  intros HG Hctx Hover.
  destruct (getState_fields this G0 ctx gameover HG Hctx Hover)
    as (ret & Hret & _ & HGret & Hlog).
  by exists ret.
Qed.

Lemma C7_getState_filters_G_and_returns_log_witness :
  ∃ ret,
    getState (Fixtures.client JUndefined JUndefined None
                Fixtures.heap_logged) = Normal ret
    ∧ get ret "G" = Normal (JObj [("seenBy", JUndefined); ("G", JNum 7)])
    ∧ get ret "log" = Normal (JArr [JStr "e0"]).
Proof.
  apply (C7_getState_filters_G_and_returns_log
           (Fixtures.client JUndefined JUndefined None Fixtures.heap_logged)
           (JNum 7) Fixtures.ctx0 JUndefined);
    reflexivity.
Defined.

(** ** Claims about the dispatchers *)

Section Dispatchers.

Context (Actions : ActionTypes) (ActionCreators : ActionCreatorsT).

Lemma foldl_insert_lookup (f : string → Dispatcher) (names : list string)
    (acc : gmap string Dispatcher) (name : string) :
  foldl (λ dispatchers n, <[n := f n]> dispatchers) acc names !! name =
    if decide (name ∈ names) then Some (f name) else acc !! name.
Proof.
  revert acc. induction names as [|n names IH]; intros acc; cbn [foldl].
  - by rewrite decide_False by apply not_elem_of_nil.
  - rewrite IH. destruct (decide (name ∈ names)) as [Hin|Hnotin].
    + by rewrite decide_True by by right.
    + destruct (decide (n = name)) as [->|Hne].
      * rewrite lookup_insert_eq. by rewrite decide_True by by left.
      * rewrite lookup_insert_ne by done.
        rewrite decide_False; [done|]. by intros [->|?]%elem_of_cons.
Qed.

(** The object [createDispatchers] returns has exactly the given names, each
    bound to its dispatcher. *)
Lemma createDispatchers_lookup storeActionType names store playerID
    credentials multiplayer name :
  createDispatchers Actions ActionCreators storeActionType names store
    playerID credentials multiplayer !! name =
    if decide (name ∈ names)
    then Some (dispatcher Actions ActionCreators storeActionType name store
                 playerID credentials multiplayer)
    else None.
Proof.
  unfold createDispatchers.
  rewrite (foldl_insert_lookup
             (λ n, dispatcher Actions ActionCreators storeActionType n store
                     playerID credentials multiplayer)).
  by rewrite lookup_empty.
Qed.

(** A dispatcher in single-player mode without a player id reads
    [ctx.currentPlayer] from the heap it is called on. *)
Lemma dispatcher_assumes_currentPlayer storeActionType creator name store
    playerID credentials multiplayer args h ctx currentPlayer :
  ActionCreators_at ActionCreators storeActionType = Normal creator →
  truthy multiplayer = false →
  playerID = JNull ∨ playerID = JUndefined →
  get (store_state h) "ctx" = Normal ctx →
  get ctx "currentPlayer" = Normal currentPlayer →
  dispatcher Actions ActionCreators storeActionType name store playerID
    credentials multiplayer args h =
    (store_dispatch Actions store
       (creator (JStr name) (JArr args) currentPlayer credentials);;
     mret ()) h.
Proof.
  intros Hcreator Hsingle Hunset Hctx Hcur.
  unfold dispatcher. rewrite Hsingle, Hcreator.
  assert (is_null playerID || is_undefined playerID = true) as ->
    by by destruct Hunset as [->| ->].
  unfold mbind at 1, M_bind at 1, mbind at 1, M_bind at 1, store_getState.
  cbn. unfold mbind at 1, M_bind at 1, lift at 1. rewrite Hctx.
  unfold lift at 1. by rewrite Hcur.
Qed.

(** Any other dispatcher passes the configured player id on. *)
Lemma dispatcher_keeps_playerID storeActionType creator name store
    playerID credentials multiplayer args h :
  ActionCreators_at ActionCreators storeActionType = Normal creator →
  truthy multiplayer = true ∨ (playerID ≠ JNull ∧ playerID ≠ JUndefined) →
  dispatcher Actions ActionCreators storeActionType name store playerID
    credentials multiplayer args h =
    (store_dispatch Actions store
       (creator (JStr name) (JArr args) playerID credentials);;
     mret ()) h.
Proof.
  intros Hcreator Hmode. unfold dispatcher. rewrite Hcreator.
  assert (negb (truthy multiplayer)
          && (is_null playerID || is_undefined playerID) = false) as ->.
  { destruct Hmode as [->|[Hnull Hundef]]; [done|].
    destruct playerID; try done; by rewrite andb_false_r. }
  done.
Qed.

End Dispatchers.

(** C6. Every dispatcher of a set built by [createDispatchers], when called:
    in single-player mode (a falsy [multiplayer]) with a [null] or
    [undefined] player id, dispatches the action made with
    [ctx.currentPlayer] of the store state at the time of the call; in every
    other case, dispatches the action made with the configured player id as
    it is, [null] and [undefined] in multiplayer mode included. *)
Theorem C6_dispatcher_resolves_identity_at_call_time
    (Actions : ActionTypes) (ActionCreators : ActionCreatorsT)
    (storeActionType : string)
    (creator : jsval → jsval → jsval → jsval → jsval)
    (names : list string) (store : Store)
    (playerID credentials multiplayer : jsval) (name : string) :
  ActionCreators_at ActionCreators storeActionType = Normal creator →
  name ∈ names →
  ∃ d : Dispatcher,
    createDispatchers Actions ActionCreators storeActionType names store
      playerID credentials multiplayer !! name = Some d
    ∧ (∀ args h ctx currentPlayer,
         truthy multiplayer = false →
         playerID = JNull ∨ playerID = JUndefined →
         get (store_state h) "ctx" = Normal ctx →
         get ctx "currentPlayer" = Normal currentPlayer →
         d args h =
           (store_dispatch Actions store
              (creator (JStr name) (JArr args) currentPlayer credentials);;
            mret ()) h)
    ∧ (∀ args h,
         truthy multiplayer = true
           ∨ (playerID ≠ JNull ∧ playerID ≠ JUndefined) →
         d args h =
           (store_dispatch Actions store
              (creator (JStr name) (JArr args) playerID credentials);;
            mret ()) h).
Proof.
  intros Hcreator Hin. eexists. split.
  - rewrite createDispatchers_lookup. by rewrite decide_True.
  - split.
    + intros args h ctx currentPlayer.
      by apply dispatcher_assumes_currentPlayer.
    + intros args h. by apply dispatcher_keeps_playerID.
Qed.

Lemma C6_dispatcher_resolves_identity_at_call_time_witness :
  (∃ d : Dispatcher,
     createMoveDispatchers Fixtures.tags Fixtures.creators ["draw"; "play"]
       Fixtures.store0 JUndefined (JStr "key") JUndefined !! "draw" = Some d
     ∧ d [JNum 1] Fixtures.heap0 =
         (store_dispatch Fixtures.tags Fixtures.store0
            (makeMove Fixtures.creators (JStr "draw") (JArr [JNum 1])
               (JStr "1") (JStr "key"));; mret ()) Fixtures.heap0
     ∧ d [JNum 1] Fixtures.heap_turn0 =
         (store_dispatch Fixtures.tags Fixtures.store0
            (makeMove Fixtures.creators (JStr "draw") (JArr [JNum 1])
               (JStr "0") (JStr "key"));; mret ()) Fixtures.heap_turn0)
  ∧ (∃ d : Dispatcher,
       createEventDispatchers Fixtures.tags Fixtures.creators ["endTurn"]
         Fixtures.store0 JNull (JStr "key") (JBool true) !! "endTurn" = Some d
       ∧ d [] Fixtures.heap0 =
           (store_dispatch Fixtures.tags Fixtures.store0
              (gameEvent Fixtures.creators (JStr "endTurn") (JArr [])
                 JNull (JStr "key"));; mret ()) Fixtures.heap0).
Proof.
  split.
  - destruct (C6_dispatcher_resolves_identity_at_call_time Fixtures.tags
                Fixtures.creators "makeMove" (makeMove Fixtures.creators)
                ["draw"; "play"] Fixtures.store0 JUndefined (JStr "key")
                JUndefined "draw" eq_refl)
      as (d & Hd & Hcur & _); [by left|].
    exists d. split; [exact Hd|]. split.
    + apply (Hcur [JNum 1] Fixtures.heap0 Fixtures.ctx0 (JStr "1"));
        [reflexivity | right; reflexivity | reflexivity | reflexivity].
    + eapply (Hcur [JNum 1] Fixtures.heap_turn0 _ (JStr "0"));
        [reflexivity | right; reflexivity | reflexivity | reflexivity].
  - destruct (C6_dispatcher_resolves_identity_at_call_time Fixtures.tags
                Fixtures.creators "gameEvent" (gameEvent Fixtures.creators)
                ["endTurn"] Fixtures.store0 JNull (JStr "key") (JBool true)
                "endTurn" eq_refl)
      as (d & Hd & _ & Hkeep); [by left|].
    exists d. split; [exact Hd|].
    apply (Hkeep [] Fixtures.heap0). left; reflexivity.
Defined.

(** ** Claims about the constructor and the mutators *)

Section Orchestrator.

Context (Actions : ActionTypes) (ActionCreators : ActionCreatorsT).
Context {T : Type} `{!Transport T} {Enhancer : Type}.
Context (createStore : Reducer → option Enhancer → Store * jsval).
Context (transport_createStore :
           T → Reducer → option Enhancer → Store * jsval).
Context (CreateGameReducer : Game → jsval → jsval → Reducer).

(** The constructor returns, and the client it returns has a [step] exactly
    for options with an [ai] and an [undefined] [multiplayer]. *)
Lemma new_ClientImpl_step (opts : ClientOpts (Enhancer := Enhancer)) :
  ∃ this,
    new_ClientImpl Actions ActionCreators createStore
      transport_createStore CreateGameReducer opts = Normal this
    ∧ step this =
        match opts_ai opts with
        | Some ai =>
            if is_undefined (opts_multiplayer opts)
            then Some (step_fn Actions (bot ai (opts_game opts) (enumerate ai))
                         (store this))
            else None
        | None => None
        end.
Proof.
  unfold new_ClientImpl.
  destruct (opts_multiplayer opts) as [| |b|n|s|l|ps] eqn:Hmp; cbn;
    try destruct (bool_decide _); cbn;
    repeat match goal with
      | |- context [if ?c then (_, _, _) else _] => destruct c
      | |- context [createStore ?r ?e] => destruct (createStore r e)
      | |- context [transport_createStore ?t ?r ?e] =>
          destruct (transport_createStore t r e)
      end;
    (eexists; split; [reflexivity|]); cbn;
    by destruct (opts_ai opts).
Qed.

(** [step] when the strategy proposes nothing: the falsy [action] is
    returned and nothing is dispatched. *)
Lemma step_fn_no_action (b : Bot) (store : Store) (h : Heap)
    (ctx actionPlayers playerID action metadata : jsval) :
  get (store_state h) "ctx" = Normal ctx →
  get ctx "actionPlayers" = Normal actionPlayers →
  get_index0 actionPlayers = Normal playerID →
  get (play b (store_state h) playerID) "action" = Normal action →
  get (play b (store_state h) playerID) "metadata" = Normal metadata →
  truthy action = false →
  step_fn Actions b store h = (Normal action, h).
Proof.
  intros Hctx Hplayers Hplayer Haction Hmeta Hfalsy.
  unfold step_fn, mbind, M_bind, store_getState, lift.
  by rewrite Hctx, Hplayers, Hplayer, Haction, Hmeta, Hfalsy.
Qed.

(** [step] when the strategy proposes an action object whose payload is an
    object: the metadata is stored in the payload, and the action, so
    changed, is dispatched and returned. *)
Lemma step_fn_action (b : Bot) (store : Store) (h : Heap)
    (ctx actionPlayers playerID metadata : jsval)
    (props payload : list (string * jsval)) :
  get (store_state h) "ctx" = Normal ctx →
  get ctx "actionPlayers" = Normal actionPlayers →
  get_index0 actionPlayers = Normal playerID →
  get (play b (store_state h) playerID) "action" = Normal (JObj props) →
  get (play b (store_state h) playerID) "metadata" = Normal metadata →
  get (JObj props) "payload" = Normal (JObj payload) →
  step_fn Actions b store h =
    (let action' :=
       JObj (assoc_set "payload"
               (JObj (assoc_set "metadata" metadata payload)) props) in
     store_dispatch Actions store action';; mret action') h.
Proof.
  intros Hctx Hplayers Hplayer Haction Hmeta Hpayload.
  unfold step_fn.
  unfold mbind at 1 2 3 4 5 6, M_bind at 1 2 3 4 5 6, store_getState, lift.
  rewrite Hctx, Hplayers, Hplayer, Haction, Hmeta. cbn [truthy].
  unfold mbind at 1, M_bind at 1. rewrite Hpayload. reflexivity.
Qed.

End Orchestrator.

(** C8. The constructor returns a client that has a [step] exactly when the
    options carry an [ai] and [multiplayer] is [undefined].  Called on a
    heap, that [step] asks the strategy built from the [ai] to play on the
    current store state for [ctx.actionPlayers[0]]; when the strategy's
    [action] is falsy, [step] returns it and dispatches nothing; when it is
    an object with an object payload, [step] stores the metadata in the
    payload, dispatches the action and returns it. *)
Theorem C8_step_defined_iff_ai_and_plays_the_bot
    (Actions : ActionTypes) (ActionCreators : ActionCreatorsT)
    {T : Type} `{!Transport T} {Enhancer : Type}
    (createStore : Reducer → option Enhancer → Store * jsval)
    (transport_createStore : T → Reducer → option Enhancer → Store * jsval)
    (CreateGameReducer : Game → jsval → jsval → Reducer)
    (opts : ClientOpts (Enhancer := Enhancer)) :
  ∃ this,
    new_ClientImpl Actions ActionCreators createStore transport_createStore
      CreateGameReducer opts = Normal this
    ∧ (is_Some (step this)
       ↔ is_Some (opts_ai opts) ∧ opts_multiplayer opts = JUndefined)
    ∧ ∀ step_this, step this = Some step_this →
        ∃ ai, opts_ai opts = Some ai
          ∧ ∀ h ctx actionPlayers playerID action metadata,
              let b := bot ai (opts_game opts) (enumerate ai) in
              get (store_state h) "ctx" = Normal ctx →
              get ctx "actionPlayers" = Normal actionPlayers →
              get_index0 actionPlayers = Normal playerID →
              get (play b (store_state h) playerID) "action"
                = Normal action →
              get (play b (store_state h) playerID) "metadata"
                = Normal metadata →
              (truthy action = false → step_this h = (Normal action, h))
              ∧ ∀ props payload,
                  action = JObj props →
                  get action "payload" = Normal (JObj payload) →
                  let action' :=
                    JObj (assoc_set "payload"
                            (JObj (assoc_set "metadata" metadata payload))
                            props) in
                  step_this h =
                    (store_dispatch Actions (store this) action';;
                     mret action') h
                  ∧ (payload' ← get action' "payload";
                     get payload' "metadata") = Normal metadata.
Proof.
  destruct (new_ClientImpl_step Actions ActionCreators createStore
              transport_createStore CreateGameReducer opts)
    as (this & Hnew & Hstep).
  exists this. split; [done|]. rewrite Hstep. split.
  - destruct (opts_ai opts) as [ai|], (opts_multiplayer opts);
      cbn; split; try done;
      try (by intros [??]%is_Some_None);
      try (by intros [[??]%is_Some_None ?]);
      try (by intros [? [=]]).
  - intros step_this Hsome.
    destruct (opts_ai opts) as [ai|]; [|done].
    destruct (is_undefined (opts_multiplayer opts)); [|done].
    injection Hsome as <-. exists ai. split; [done|].
    intros h ctx actionPlayers playerID action metadata b
      Hctx Hplayers Hplayer Haction Hmeta.
    split; [by eapply step_fn_no_action|].
    intros props payload -> Hpayload action'. split.
    + by eapply step_fn_action.
    + subst action'. unfold mbind, completion_bind.
      rewrite get_with_prop_eq. apply get_with_prop_eq.
Qed.

Lemma C8_step_defined_iff_ai_and_plays_the_bot_witness :
  ∃ this step_this,
    Fixtures.client0 (Some Fixtures.draw_ai) JUndefined JUndefined
      = Normal this
    ∧ step this = Some step_this
    ∧ step_this Fixtures.heap0 =
        (Normal Fixtures.stepped_action,
         {| store_state :=
              Fixtures.echo_reducer Fixtures.state0 Fixtures.stepped_action;
            log := JArr [Fixtures.stepped_action] |}).
Proof.
  destruct (C8_step_defined_iff_ai_and_plays_the_bot Fixtures.tags
              Fixtures.creators Fixtures.createStore0
              Fixtures.transport_createStore0 Fixtures.CreateGameReducer0
              (Fixtures.opts0 (Some Fixtures.draw_ai) JUndefined JUndefined))
    as (this & Hnew & Hiff & Hstep).
  destruct (proj2 Hiff) as [step_this Hsome];
    [split; [by eexists|reflexivity]|].
  exists this, step_this. split; [exact Hnew|]. split; [exact Hsome|].
  destruct (Hstep step_this Hsome) as (ai & [= <-] & Hrun).
  assert (store this = Fixtures.store0) as Hstore.
  { unfold new_ClientImpl in Hnew. cbn in Hnew. by injection Hnew as <-. }
  destruct (Hrun Fixtures.heap0 Fixtures.ctx0 (JArr [JStr "1"]) (JStr "1")
              (makeMove Fixtures.creators (JStr "draw") (JArr []) (JStr "1")
                 JUndefined)
              (JStr "m") eq_refl eq_refl eq_refl eq_refl eq_refl)
    as [_ Hact].
  destruct (Hact _ _ eq_refl eq_refl) as [-> _].
  rewrite Hstore. reflexivity.
Defined.

(** C9. [updatePlayerID], [updateGameID] and [updateCredentials] each set
    their field and rebuild both dispatcher sets from the client's fields as
    they then are, so that the dispatcher read afterwards under a move or
    event name is the one closed over the new identity; the first two pass
    the new value to the transport when there is one, the third leaves the
    transport as it is. *)
Theorem C9_mutators_rebuild_dispatchers
    (Actions : ActionTypes) (ActionCreators : ActionCreatorsT)
    {T : Type} `{!Transport T} (this : ClientImpl (T := T)) (v : jsval) :
  let rebuilt (this' : ClientImpl (T := T)) :=
    moves this' =
      createMoveDispatchers Actions ActionCreators (moveNames (game this))
        (store this) (playerID this') (credentials this') (multiplayer this)
    ∧ events this' =
      createEventDispatchers Actions ActionCreators
        (eventNames (flow (game this))) (store this) (playerID this')
        (credentials this') (multiplayer this)
    ∧ (∀ name, name ∈ moveNames (game this) →
         moves this' !! name =
           Some (dispatcher Actions ActionCreators "makeMove" name
                   (store this) (playerID this') (credentials this')
                   (multiplayer this)))
    ∧ (∀ name, name ∈ eventNames (flow (game this)) →
         events this' !! name =
           Some (dispatcher Actions ActionCreators "gameEvent" name
                   (store this) (playerID this') (credentials this')
                   (multiplayer this))) in
  (let this' := updatePlayerID Actions ActionCreators v this in
   playerID this' = v ∧ gameID this' = gameID this
   ∧ credentials this' = credentials this ∧ rebuilt this'
   ∧ multiplayerClient this' =
       transport_updatePlayerID v <$> multiplayerClient this)
  ∧ (let this' := updateGameID Actions ActionCreators v this in
     gameID this' = v ∧ playerID this' = playerID this
     ∧ credentials this' = credentials this ∧ rebuilt this'
     ∧ multiplayerClient this' =
         transport_updateGameID v <$> multiplayerClient this)
  ∧ (let this' := updateCredentials Actions ActionCreators v this in
     credentials this' = v ∧ playerID this' = playerID this
     ∧ gameID this' = gameID this ∧ rebuilt this'
     ∧ multiplayerClient this' = multiplayerClient this).
Proof.
  intros rebuilt.
  assert (∀ this' : ClientImpl (T := T),
            moves this' =
              createMoveDispatchers Actions ActionCreators
                (moveNames (game this)) (store this) (playerID this')
                (credentials this') (multiplayer this) →
            events this' =
              createEventDispatchers Actions ActionCreators
                (eventNames (flow (game this))) (store this) (playerID this')
                (credentials this') (multiplayer this) →
            rebuilt this') as Hrebuilt.
  { intros this' Hmoves Hevents. unfold rebuilt.
    split; [done|]. split; [done|]. split; intros name Hin.
    - rewrite Hmoves. unfold createMoveDispatchers.
      rewrite createDispatchers_lookup. by rewrite decide_True.
    - rewrite Hevents. unfold createEventDispatchers.
      rewrite createDispatchers_lookup. by rewrite decide_True. }
  refine (conj _ (conj _ _)); cbn zeta.
  - unfold updatePlayerID. cbn.
    destruct (multiplayerClient this) as [mc|]; cbn;
      (refine (conj _ (conj _ (conj _ (conj _ _))));
       [done|done|done|by apply Hrebuilt|done]).
  - unfold updateGameID. cbn.
    destruct (multiplayerClient this) as [mc|]; cbn;
      (refine (conj _ (conj _ (conj _ (conj _ _))));
       [done|done|done|by apply Hrebuilt|done]).
  - unfold updateCredentials. cbn.
    refine (conj _ (conj _ (conj _ (conj _ _))));
      [done|done|done|by apply Hrebuilt|done].
Qed.

Lemma C9_mutators_rebuild_dispatchers_witness :
  multiplayerClient
    (updatePlayerID Fixtures.tags Fixtures.creators (JStr "1")
       (Fixtures.client (JBool true) (JStr "0") (Some Fixtures.socket0)
          Fixtures.heap0))
    = Some {| Fixtures.socket_gameID := JStr "default";
              Fixtures.socket_playerID := JStr "1";
              Fixtures.socket_connected := true |}
  ∧ moves
      (updatePlayerID Fixtures.tags Fixtures.creators (JStr "1")
         (Fixtures.client (JBool true) (JStr "0") (Some Fixtures.socket0)
            Fixtures.heap0)) !! "draw"
    = Some (dispatcher Fixtures.tags Fixtures.creators "makeMove" "draw"
              Fixtures.store0 (JStr "1") JUndefined (JBool true))
  ∧ events
      (updateCredentials Fixtures.tags Fixtures.creators (JStr "1")
         (Fixtures.client (JBool true) (JStr "0") (Some Fixtures.socket0)
            Fixtures.heap0)) !! "endTurn"
    = Some (dispatcher Fixtures.tags Fixtures.creators "gameEvent" "endTurn"
              Fixtures.store0 (JStr "0") (JStr "1") (JBool true))
  ∧ multiplayerClient
      (updateCredentials Fixtures.tags Fixtures.creators (JStr "1")
         (Fixtures.client (JBool true) (JStr "0") (Some Fixtures.socket0)
            Fixtures.heap0))
    = Some Fixtures.socket0.
Proof.
  destruct (C9_mutators_rebuild_dispatchers Fixtures.tags Fixtures.creators
              (Fixtures.client (JBool true) (JStr "0")
                 (Some Fixtures.socket0) Fixtures.heap0) (JStr "1"))
    as ((_ & _ & _ & (_ & _ & Hmoves & _) & Hsocket) & _
        & (_ & _ & _ & (_ & _ & _ & Hevents) & Hsame)).
  refine (conj Hsocket (conj _ (conj _ Hsame))).
  - apply Hmoves. by left.
  - apply Hevents. by left.
Defined.

(** ** Scenarios *)

(** Single-player, no player id: the move [draw(1)] is made for the current
    player ["1"], the log grows by the reducer's one-entry deltalog, and
    [getState().G] is the player view for an unset player id. *)
Example scenario_single_player_draw :
  ∃ draw c,
    moves (Fixtures.client JUndefined JUndefined None Fixtures.heap0)
      !! "draw" = Some draw
    ∧ run (draw [JNum 1])
        (Fixtures.client JUndefined JUndefined None Fixtures.heap0)
      = (Normal (), c)
    ∧ log (heap c) =
        JArr [makeMove Fixtures.creators (JStr "draw") (JArr [JNum 1])
                (JStr "1") JUndefined]
    ∧ (ret ← getState c; get ret "G")
      = Normal (JObj [("seenBy", JUndefined); ("G", JNum 7)]).
Proof. do 2 eexists. repeat split. Qed.

(** Multiplayer, player ["0"]: after the transport delivers a sync with a
    three-entry log, [getState().log] is those entries and [isConnected] is
    the transport's flag. *)
Example scenario_multiplayer_sync :
  ∃ c,
    run (store_dispatch Fixtures.tags Fixtures.store0 Fixtures.sync_action)
      (Fixtures.client (JBool true) (JStr "0") (Some Fixtures.socket0)
         Fixtures.heap1)
      = (Normal Fixtures.sync_action, c)
    ∧ (ret ← getState c; get ret "log")
      = Normal (JArr [JStr "a"; JStr "b"; JStr "c"])
    ∧ (ret ← getState c; get ret "isConnected") = Normal (JBool true).
Proof. eexists. repeat split. Qed.

(** [reset()] empties the log. *)
Example scenario_reset :
  ∃ c,
    run (reset_method Fixtures.tags Fixtures.creators
           (Fixtures.client JUndefined JUndefined None Fixtures.heap1))
      (Fixtures.client JUndefined JUndefined None Fixtures.heap1)
      = (Normal (), c)
    ∧ log (heap c) = JArr [].
Proof. eexists. repeat split. Qed.

(** A dispatcher read before [updatePlayerID("1")] still acts for the old
    player id; the one read afterwards acts for the new one. *)
Example scenario_updatePlayerID :
  ∃ old_draw new_draw,
    moves (Fixtures.client (JBool true) (JStr "0") (Some Fixtures.socket0)
             Fixtures.heap0) !! "draw" = Some old_draw
    ∧ moves (updatePlayerID Fixtures.tags Fixtures.creators (JStr "1")
               (Fixtures.client (JBool true) (JStr "0")
                  (Some Fixtures.socket0) Fixtures.heap0)) !! "draw"
      = Some new_draw
    ∧ log (old_draw [] Fixtures.heap0).2 =
        JArr [makeMove Fixtures.creators (JStr "draw") (JArr []) (JStr "0")
                JUndefined]
    ∧ log (new_draw [] Fixtures.heap0).2 =
        JArr [makeMove Fixtures.creators (JStr "draw") (JArr []) (JStr "1")
                JUndefined].
Proof. do 2 eexists. repeat split. Qed.

(** * Further properties of the client *)

(** ** Dispatcher sets *)



(** ** The log middleware as a wrapper *)

Lemma get_throws v k e : get v k = Throw e → e = TypeError.
Proof. destruct v; simpl; congruence. Qed.

Lemma spread_throws v e : spread v = Throw e → e = TypeError.
Proof. destruct v; simpl; congruence. Qed.

(** Closes the three parts of the transparency statement once the dispatch
    has been evaluated. *)
Local Ltac transparent_case :=
  cbn; split; [reflexivity|]; split;
  [ intros ? ?; by simplify_eq
  | intros ? ?; simplify_eq;
    (split; [reflexivity|];
     first [ by left | right; by eauto using get_throws, spread_throws ]) ].

(** X2. The log middleware is transparent: the store state after a
    dispatch is the one the wrapped dispatch left; a dispatch that returns,
    returns what the wrapped dispatch returned; and a dispatch that throws
    has not changed the log, and throws either what the wrapped dispatch
    threw or a [TypeError] of its own. *)
Theorem store_dispatch_transparent
    (Actions : ActionTypes) (store : Store) (action : jsval) (h : Heap) :
  store_state (store_dispatch Actions store action h).2
    = (next store action (store_state h)).2
  ∧ (∀ r, (store_dispatch Actions store action h).1 = Normal r →
          (next store action (store_state h)).1 = Normal r)
  ∧ (∀ e, (store_dispatch Actions store action h).1 = Throw e →
          log (store_dispatch Actions store action h).2 = log h
          ∧ ((next store action (store_state h)).1 = Throw e
             ∨ e = TypeError)).
Proof.
  unfold store_dispatch.
  destruct (next store action (store_state h)) as [[r|e] s] eqn:Hnext;
    [|rewrite (LogMiddleware_next_throws _ _ _ _ _ _ Hnext);
      transparent_case].
  destruct (get action "type") as [type|e] eqn:Htype;
    [|rewrite (LogMiddleware_type_throws _ _ _ _ _ _ _ Hnext Htype);
      transparent_case].
  rewrite (LogMiddleware_after_next _ _ _ _ _ _ _ Hnext Htype). cbn zeta.
  unfold mbind, M_bind, lift, set_this_log, mret, M_ret.
  destruct (_ || _).
  { destruct (get s "deltalog") as [d|e] eqn:Hd; [|transparent_case].
    cbn. destruct (spread (log h)) as [l1|e] eqn:H1; [|transparent_case].
    destruct (spread d) as [l2|e] eqn:H2; transparent_case. }
  destruct (strict_eq_str type (RESET Actions)); [transparent_case|].
  destruct (strict_eq_str type (UPDATE Actions)).
  { destruct (get action "deltalog") as [d|e] eqn:Hd; [|transparent_case].
    cbn. destruct (spread (log h)) as [l1|e] eqn:H1; [|transparent_case].
    destruct (spread (js_or d (JArr []))) as [l2|e] eqn:H2;
      transparent_case. }
  destruct (strict_eq_str type (SYNC Actions)); [|transparent_case].
  destruct (get action "log") as [l|e] eqn:Hl; transparent_case.
Qed.

Lemma store_dispatch_transparent_witness :
  (store_dispatch Fixtures.tags (Fixtures.local_store Fixtures.idle_reducer)
     Fixtures.draw_action Fixtures.heap1).1 = Throw TypeError
  ∧ log (store_dispatch Fixtures.tags
           (Fixtures.local_store Fixtures.idle_reducer)
           Fixtures.draw_action Fixtures.heap1).2 = JArr [JStr "e0"]
  ∧ (next Fixtures.store0 Fixtures.draw_action
       (store_state Fixtures.heap1)).1 = Normal Fixtures.draw_action.
Proof.
  split; [reflexivity|]. split.
  - apply (proj2 (proj2 (store_dispatch_transparent Fixtures.tags
                           (Fixtures.local_store Fixtures.idle_reducer)
                           Fixtures.draw_action Fixtures.heap1))
             TypeError eq_refl).
  - apply (proj1 (proj2 (store_dispatch_transparent Fixtures.tags
                           Fixtures.store0 Fixtures.draw_action
                           Fixtures.heap1))).
    reflexivity.
Defined.

(** One dispatch of an action whose log, if it is a sync, is an array or
    falsy keeps the client's log an array. *)
Lemma dispatch_keeps_array (Actions : ActionTypes) (store : Store)
    (action : jsval) (h : Heap) :
  is_array (log h) = true →
  carries_array_log Actions action = true →
  is_array (log (store_dispatch Actions store action h).2) = true.
Proof.
  intros Harr Hsync. unfold store_dispatch.
  destruct (next store action (store_state h)) as [[r|e] s] eqn:Hnext;
    [|by rewrite (LogMiddleware_next_throws _ _ _ _ _ _ Hnext)].
  destruct (get action "type") as [type|e] eqn:Htype;
    [|by rewrite (LogMiddleware_type_throws _ _ _ _ _ _ _ Hnext Htype)].
  rewrite (LogMiddleware_after_next _ _ _ _ _ _ _ Hnext Htype). cbn zeta.
  unfold carries_array_log in Hsync. rewrite Htype in Hsync.
  unfold mbind, M_bind, lift, set_this_log, mret, M_ret.
  destruct (_ || _).
  { destruct (get s "deltalog") as [d|]; [|done]. cbn.
    destruct (spread (log h)); [|done]. by destruct (spread d). }
  destruct (strict_eq_str type (RESET Actions)); [done|].
  destruct (strict_eq_str type (UPDATE Actions)).
  { destruct (get action "deltalog") as [d|]; [|done]. cbn.
    destruct (spread (log h)); [|done].
    by destruct (spread (js_or d (JArr []))). }
  destruct (strict_eq_str type (SYNC Actions)); [|done].
  destruct (get action "log") as [l|]; [|done]. cbn.
  unfold js_or. destruct (truthy l); [|done].
  by rewrite orb_false_r in Hsync.
Qed.

(** X3. Over any sequence of dispatches (returning or throwing) in which
    every sync carries a log that is an array or falsy, a log that is an
    array stays an array; in particular the log of a new client, [[]],
    does. *)
Theorem log_stays_an_array
    (Actions : ActionTypes) (store : Store) (actions : list jsval)
    (h : Heap) :
  is_array (log h) = true →
  Forall (λ action, carries_array_log Actions action = true) actions →
  is_array (log (dispatch_all Actions store actions h)) = true.
Proof.
  intros Harr Hall. revert h Harr.
  induction Hall as [|action actions Hsync _ IH]; intros h Harr; [done|].
  cbn [dispatch_all]. apply IH. by apply dispatch_keeps_array.
Qed.

Lemma log_stays_an_array_witness :
  is_array
    (log (dispatch_all Fixtures.tags
            (Fixtures.local_store Fixtures.idle_reducer)
            [Fixtures.sync_action; Fixtures.draw_action;
             Fixtures.bare_sync_action; Fixtures.update_action;
             reset Fixtures.creators]
            Fixtures.heap0)) = true.
Proof.
  apply (log_stays_an_array Fixtures.tags
           (Fixtures.local_store Fixtures.idle_reducer)); [reflexivity|].
  repeat constructor.
Defined.

(** ** [getState] beyond [isActive], [G] and [log] *)

(** A state whose [ctx] can be read and is neither [undefined] nor [null]
    is an object. *)
Lemma readable_ctx_is_object state ctx gameover :
  get state "ctx" = Normal ctx →
  get ctx "gameover" = Normal gameover →
  ∃ ps, state = JObj ps.
Proof.
  destruct state; simpl; intros [= <-]; try done; by eauto.
Qed.

(** X4. [getState()] passes every other field of the store state through
    unchanged ([ctx] among them); [isConnected] is the transport's flag when
    there is a transport, and otherwise whatever the store state has under
    that name. *)
Theorem getState_passes_other_fields
    {T : Type} `{!Transport T} (this : ClientImpl (T := T))
    (ctx gameover : jsval) (k : string) :
  get (store_state (heap this)) "ctx" = Normal ctx →
  get ctx "gameover" = Normal gameover →
  k ∉ ["isActive"; "G"; "log"; "isConnected"] →
  ∃ ret,
    getState this = Normal ret
    ∧ get ret k = get (store_state (heap this)) k
    ∧ get ret "ctx" = Normal ctx
    ∧ get ret "isConnected" =
        match multiplayerClient this with
        | Some mc => Normal (transport_isConnected mc)
        | None => get (store_state (heap this)) "isConnected"
        end.
Proof.
  intros Hctx Hover Hk.
  rewrite !not_elem_of_cons in Hk. destruct Hk as (Hk1 & Hk2 & Hk3 & Hk4 & _).
  destruct (readable_ctx_is_object _ _ _ Hctx Hover) as [ps Hstate].
  destruct (get_ctx_get_G _ _ Hctx) as [G0 HG].
  unfold getState. rewrite HG; cbn. rewrite Hctx; cbn. rewrite Hover; cbn.
  rewrite <- Hctx. rewrite Hstate. cbn [spread_props]. unfold with_prop.
  destruct (multiplayerClient this) as [mc|]; eexists;
    (split; [reflexivity|]).
  - rewrite get_with_prop_eq.
    rewrite !(get_with_prop_ne _ _ k), !(get_with_prop_ne _ _ "ctx") by done.
    done.
  - rewrite !(get_with_prop_ne _ _ k), !(get_with_prop_ne _ _ "ctx"),
      !(get_with_prop_ne _ _ "isConnected") by done.
    done.
Qed.

Lemma getState_passes_other_fields_witness :
  ∃ ret,
    getState (Fixtures.client JUndefined JUndefined None Cases.heap_rich)
      = Normal ret
    ∧ get ret "_stateID" = Normal (JNum 3)
    ∧ get ret "ctx" = Normal Fixtures.ctx0
    ∧ get ret "isConnected" = Normal JUndefined.
Proof.
  apply (getState_passes_other_fields
           (Fixtures.client JUndefined JUndefined None Cases.heap_rich)
           Fixtures.ctx0 JUndefined "_stateID");
    [reflexivity | reflexivity |].
  rewrite !not_elem_of_cons. repeat split; try discriminate.
  apply not_elem_of_nil.
Defined.

(** X5. [getState()] throws a [TypeError] when the store state is
    [undefined] or [null], or its [ctx] is (a state that is not an object
    has no [ctx]); on every other state it returns an object. *)
Theorem getState_throws_iff_no_ctx
    {T : Type} `{!Transport T} (this : ClientImpl (T := T)) :
  match get (store_state (heap this)) "ctx" with
  | Normal ctx =>
      if is_undefined ctx || is_null ctx
      then getState this = Throw TypeError
      else ∃ ps, getState this = Normal (JObj ps)
  | Throw _ => getState this = Throw TypeError
  end.
Proof.
  unfold getState.
  destruct (store_state (heap this)) as [| |b|n|s|l|ps] eqn:Hstate;
    cbn; try done.
  destruct (default JUndefined (assoc "ctx" ps)) eqn:Hctx; cbn; try done;
    destruct (multiplayerClient this); by eexists.
Qed.

(** ** Dispatchers, from the call to the log *)

Section DispatcherCalls.

Context (Actions : ActionTypes) (ActionCreators : ActionCreatorsT).

(** A dispatcher first resolves the identity on the current store state;
    with the identity in hand it makes the action and dispatches it. *)
Lemma dispatcher_resolved storeActionType creator name store playerID
    credentials multiplayer args h assumedPlayerID :
  ActionCreators_at ActionCreators storeActionType = Normal creator →
  assumed_playerID playerID multiplayer (store_state h)
    = Normal assumedPlayerID →
  dispatcher Actions ActionCreators storeActionType name store playerID
    credentials multiplayer args h =
    (store_dispatch Actions store
       (creator (JStr name) (JArr args) assumedPlayerID credentials);;
     mret ()) h.
Proof.
  intros Hcreator Hid. unfold dispatcher, assumed_playerID in *.
  rewrite Hcreator.
  destruct (negb (truthy multiplayer)
            && (is_null playerID || is_undefined playerID)).
  - unfold mbind at 1, M_bind at 1, mbind at 1, M_bind at 1, store_getState.
    cbn. unfold mbind at 1, M_bind at 1, lift at 1.
    destruct (get (store_state h) "ctx") as [ctx|]; [|done].
    cbn in Hid. unfold lift at 1. by rewrite Hid.
  - by injection Hid as <-.
Qed.

Lemma dispatcher_unresolved storeActionType name store playerID
    credentials multiplayer args h e :
  assumed_playerID playerID multiplayer (store_state h) = Throw e →
  dispatcher Actions ActionCreators storeActionType name store playerID
    credentials multiplayer args h = (Throw e, h).
Proof.
  intros Hid. unfold dispatcher, assumed_playerID in *.
  destruct (negb (truthy multiplayer)
            && (is_null playerID || is_undefined playerID)); [|done].
  unfold mbind at 1, M_bind at 1, mbind at 1, M_bind at 1, store_getState.
  cbn. unfold mbind at 1, M_bind at 1, lift at 1.
  destruct (get (store_state h) "ctx") as [ctx|]; cbn in Hid.
  - unfold lift at 1. by rewrite Hid.
  - by injection Hid as <-.
Qed.

End DispatcherCalls.

(** X6. In single-player mode without a player id, a dispatcher called on
    a store state from which [state.ctx.currentPlayer] cannot be read (the
    state or its [ctx] is [undefined] or [null]) throws a [TypeError] and
    dispatches nothing: the store state and the log are as they were. *)
Theorem dispatcher_throws_without_ctx
    (Actions : ActionTypes) (ActionCreators : ActionCreatorsT)
    (storeActionType name : string) (store : Store)
    (playerID credentials multiplayer : jsval) (args : list jsval)
    (h : Heap) (e : exn) :
  truthy multiplayer = false →
  playerID = JNull ∨ playerID = JUndefined →
  (ctx ← get (store_state h) "ctx"; get ctx "currentPlayer") = Throw e →
  dispatcher Actions ActionCreators storeActionType name store playerID
    credentials multiplayer args h = (Throw TypeError, h).
Proof.
  intros Hsingle Hunset Hread.
  assert (e = TypeError) as ->.
  { destruct (get (store_state h) "ctx") as [ctx|] eqn:Hctx; cbn in Hread.
    - by eapply get_throws.
    - injection Hread as <-. by eapply get_throws. }
  apply dispatcher_unresolved. unfold assumed_playerID. rewrite Hsingle.
  by destruct Hunset as [->| ->].
Qed.

Lemma dispatcher_throws_without_ctx_witness :
  dispatcher Fixtures.tags Fixtures.creators "makeMove" "draw"
    Fixtures.store0 JUndefined JUndefined JUndefined [JNum 1]
    Cases.heap_no_ctx = (Throw TypeError, Cases.heap_no_ctx).
Proof.
  apply (dispatcher_throws_without_ctx Fixtures.tags Fixtures.creators
           "makeMove" "draw" Fixtures.store0 JUndefined JUndefined
           JUndefined [JNum 1] Cases.heap_no_ctx TypeError);
    [reflexivity | right; reflexivity | reflexivity].
Defined.

(** X7. A move or event dispatcher, from the call to the log: when the
    action it makes carries the make-move or game-event tag, the wrapped
    dispatch returns, and the state it leaves has the deltalog [d], the call
    returns nothing and leaves the log [m ++ d]. *)
Theorem dispatcher_appends_deltalog
    (Actions : ActionTypes) (ActionCreators : ActionCreatorsT)
    (storeActionType name : string)
    (creator : jsval → jsval → jsval → jsval → jsval) (store : Store)
    (playerID credentials multiplayer assumedPlayerID : jsval)
    (args : list jsval) (h : Heap) (r s : jsval) (m d : list jsval) :
  ActionCreators_at ActionCreators storeActionType = Normal creator →
  assumed_playerID playerID multiplayer (store_state h)
    = Normal assumedPlayerID →
  get (creator (JStr name) (JArr args) assumedPlayerID credentials) "type"
    = Normal (JStr (MAKE_MOVE Actions))
  ∨ get (creator (JStr name) (JArr args) assumedPlayerID credentials) "type"
    = Normal (JStr (GAME_EVENT Actions)) →
  next store (creator (JStr name) (JArr args) assumedPlayerID credentials)
    (store_state h) = (Normal r, s) →
  log h = JArr m →
  get s "deltalog" = Normal (JArr d) →
  dispatcher Actions ActionCreators storeActionType name store playerID
    credentials multiplayer args h =
    (Normal (), {| store_state := s; log := JArr (m ++ d) |}).
Proof.
  intros Hcreator Hid Htype Hnext Hlog Hdelta.
  rewrite (dispatcher_resolved _ _ _ _ _ _ _ _ _ _ _ _ Hcreator Hid).
  unfold mbind, M_bind, store_dispatch.
  assert (∃ type,
            get (creator (JStr name) (JArr args) assumedPlayerID credentials)
              "type" = Normal type
            ∧ strict_eq_str type (MAKE_MOVE Actions)
              || strict_eq_str type (GAME_EVENT Actions) = true)
    as (type & Hget & Hcase).
  { destruct Htype as [Ht|Ht]; eexists; (split; [exact Ht|]);
      rewrite strict_eq_str_refl; [done|by rewrite orb_true_r]. }
  rewrite (dispatch_move_or_event _ _ _ _ _ _ _ Hnext Hget Hcase).
  cbn zeta. by rewrite Hdelta, Hlog.
Qed.

Lemma dispatcher_appends_deltalog_witness :
  dispatcher Fixtures.tags Fixtures.creators "gameEvent" "endTurn"
    Fixtures.store0 JNull (JStr "key") JUndefined [] Fixtures.heap1 =
    (Normal (),
     {| store_state :=
          Fixtures.echo_reducer Fixtures.state0
            (gameEvent Fixtures.creators (JStr "endTurn") (JArr [])
               (JStr "1") (JStr "key"));
        log := JArr ([JStr "e0"] ++
                     [gameEvent Fixtures.creators (JStr "endTurn") (JArr [])
                        (JStr "1") (JStr "key")]) |}).
Proof.
  apply (dispatcher_appends_deltalog Fixtures.tags Fixtures.creators
           "gameEvent" "endTurn" (gameEvent Fixtures.creators)
           Fixtures.store0 JNull (JStr "key") JUndefined (JStr "1") []
           Fixtures.heap1
           (gameEvent Fixtures.creators (JStr "endTurn") (JArr [])
              (JStr "1") (JStr "key")));
    [reflexivity | reflexivity | right; reflexivity | reflexivity
    | reflexivity | reflexivity].
Defined.

(** ** [step], its failures and what it dispatches *)

(** X8. [step] throws a [TypeError] before anything is dispatched (store
    state and log as they were) when [ctx.actionPlayers] is [undefined] or
    [null], and when the strategy's action is truthy but its [payload] is
    [undefined] or [null]. *)
Theorem step_throws_before_dispatch
    (Actions : ActionTypes) (b : Bot) (store : Store) (h : Heap)
    (ctx actionPlayers : jsval) :
  get (store_state h) "ctx" = Normal ctx →
  get ctx "actionPlayers" = Normal actionPlayers →
  (actionPlayers = JUndefined ∨ actionPlayers = JNull →
   step_fn Actions b store h = (Throw TypeError, h))
  ∧ (∀ playerID action metadata payload,
       get_index0 actionPlayers = Normal playerID →
       get (play b (store_state h) playerID) "action" = Normal action →
       get (play b (store_state h) playerID) "metadata" = Normal metadata →
       truthy action = true →
       get action "payload" = Normal payload →
       payload = JUndefined ∨ payload = JNull →
       step_fn Actions b store h = (Throw TypeError, h)).
Proof.
  intros Hctx Hplayers. split.
  - intros Hnone.
    unfold step_fn, mbind, M_bind, store_getState, lift.
    rewrite Hctx, Hplayers. by destruct Hnone as [->| ->].
  - intros playerID action metadata payload Hplayer Haction Hmeta Htruthy
      Hpayload Hnone.
    unfold step_fn, mbind, M_bind, store_getState, lift.
    rewrite Hctx, Hplayers, Hplayer, Haction, Hmeta, Htruthy, Hpayload.
    by destruct Hnone as [->| ->].
Qed.

Lemma step_throws_before_dispatch_witness :
  step_fn Fixtures.tags Fixtures.draw_bot Fixtures.store0
    Cases.heap_no_players = (Throw TypeError, Cases.heap_no_players)
  ∧ step_fn Fixtures.tags Cases.bare_bot Fixtures.store0 Fixtures.heap1
    = (Throw TypeError, Fixtures.heap1).
Proof.
  split.
  - apply (step_throws_before_dispatch Fixtures.tags Fixtures.draw_bot
             Fixtures.store0 Cases.heap_no_players
             (JObj [("currentPlayer", JStr "1")]) JUndefined eq_refl eq_refl).
    by left.
  - apply (proj2 (step_throws_before_dispatch Fixtures.tags Cases.bare_bot
                    Fixtures.store0 Fixtures.heap1 Fixtures.ctx0
                    (JArr [JStr "1"]) eq_refl eq_refl)
             (JStr "1") (JObj [("type", JStr "MAKE_MOVE")]) (JStr "m")
             JUndefined);
      [reflexivity | reflexivity | reflexivity | reflexivity | reflexivity
      | by left].
Defined.

(** X9. The action [step] dispatches and returns differs from the one the
    strategy proposed only in [payload.metadata]: every other field of the
    action and every other field of its payload reads as before, and a
    [metadata] the payload already had is replaced. *)
Theorem step_changes_only_metadata
    (Actions : ActionTypes) (b : Bot) (store : Store) (h : Heap)
    (ctx actionPlayers playerID metadata : jsval)
    (props payload : list (string * jsval)) :
  get (store_state h) "ctx" = Normal ctx →
  get ctx "actionPlayers" = Normal actionPlayers →
  get_index0 actionPlayers = Normal playerID →
  get (play b (store_state h) playerID) "action" = Normal (JObj props) →
  get (play b (store_state h) playerID) "metadata" = Normal metadata →
  get (JObj props) "payload" = Normal (JObj payload) →
  ∃ action' payload',
    step_fn Actions b store h =
      (store_dispatch Actions store action';; mret action') h
    ∧ get action' "payload" = Normal payload'
    ∧ get payload' "metadata" = Normal metadata
    ∧ (∀ k, k ≠ "payload" → get action' k = get (JObj props) k)
    ∧ (∀ k, k ≠ "metadata" → get payload' k = get (JObj payload) k).
Proof.
  intros Hctx Hplayers Hplayer Haction Hmeta Hpayload.
  eexists _, _. split.
  - by eapply step_fn_action.
  - split; [apply get_with_prop_eq|]. split; [apply get_with_prop_eq|].
    split; intros k Hk; by apply get_with_prop_ne.
Qed.

Lemma step_changes_only_metadata_witness :
  ∃ action' payload',
    step_fn Fixtures.tags Cases.full_bot Fixtures.store0 Fixtures.heap0 =
      (store_dispatch Fixtures.tags Fixtures.store0 action';; mret action')
        Fixtures.heap0
    ∧ get action' "payload" = Normal payload'
    ∧ get payload' "metadata" = Normal (JStr "m")
    ∧ get action' "type" = Normal (JStr "MAKE_MOVE")
    ∧ get payload' "playerID" = Normal (JStr "1").
Proof.
  destruct (step_changes_only_metadata Fixtures.tags Cases.full_bot
              Fixtures.store0 Fixtures.heap0 Fixtures.ctx0 (JArr [JStr "1"])
              (JStr "1") (JStr "m")
              [("type", JStr "MAKE_MOVE");
               ("payload", JObj [("type", JStr "draw");
                                 ("metadata", JStr "stale");
                                 ("playerID", JStr "1")])]
              [("type", JStr "draw"); ("metadata", JStr "stale");
               ("playerID", JStr "1")]
              eq_refl eq_refl eq_refl eq_refl eq_refl eq_refl)
    as (action' & payload' & Hstep & Hpayload & Hmeta & Haction & Hrest).
  exists action', payload'.
  split; [exact Hstep|]. split; [exact Hpayload|]. split; [exact Hmeta|].
  split.
  - by rewrite Haction.
  - by rewrite Hrest.
Defined.

(** X10. What [step] dispatches goes through the log middleware like any
    other action: when the strategy's action carries the make-move or
    game-event tag and the state the wrapped dispatch leaves has the
    deltalog [d], [step] returns the action with its metadata and leaves
    the log [m ++ d]. *)
Theorem step_appends_deltalog
    (Actions : ActionTypes) (b : Bot) (store : Store) (h : Heap)
    (ctx actionPlayers playerID metadata r s : jsval)
    (props payload : list (string * jsval)) (m d : list jsval) :
  let action' :=
    JObj (assoc_set "payload"
            (JObj (assoc_set "metadata" metadata payload)) props) in
  get (store_state h) "ctx" = Normal ctx →
  get ctx "actionPlayers" = Normal actionPlayers →
  get_index0 actionPlayers = Normal playerID →
  get (play b (store_state h) playerID) "action" = Normal (JObj props) →
  get (play b (store_state h) playerID) "metadata" = Normal metadata →
  get (JObj props) "payload" = Normal (JObj payload) →
  get (JObj props) "type" = Normal (JStr (MAKE_MOVE Actions))
    ∨ get (JObj props) "type" = Normal (JStr (GAME_EVENT Actions)) →
  next store action' (store_state h) = (Normal r, s) →
  log h = JArr m →
  get s "deltalog" = Normal (JArr d) →
  step_fn Actions b store h =
    (Normal action', {| store_state := s; log := JArr (m ++ d) |}).
Proof.
  intros action' Hctx Hplayers Hplayer Haction Hmeta Hpayload Htype Hnext
    Hlog Hdelta.
  rewrite (step_fn_action Actions b store h _ _ _ _ _ _ Hctx Hplayers
             Hplayer Haction Hmeta Hpayload).
  cbn zeta. fold action'. unfold mbind, M_bind, store_dispatch.
  assert (∃ type,
            get action' "type" = Normal type
            ∧ strict_eq_str type (MAKE_MOVE Actions)
              || strict_eq_str type (GAME_EVENT Actions) = true)
    as (type & Hget & Hcase).
  { unfold action'. rewrite get_with_prop_ne by done.
    destruct Htype as [Ht|Ht]; eexists; (split; [exact Ht|]);
      rewrite strict_eq_str_refl; [done|by rewrite orb_true_r]. }
  rewrite (dispatch_move_or_event _ _ _ _ _ _ _ Hnext Hget Hcase).
  cbn zeta. by rewrite Hdelta, Hlog.
Qed.

Lemma step_appends_deltalog_witness :
  step_fn Fixtures.tags Fixtures.draw_bot Fixtures.store0 Fixtures.heap1 =
    (Normal Fixtures.stepped_action,
     {| store_state :=
          Fixtures.echo_reducer Fixtures.state0 Fixtures.stepped_action;
        log := JArr ([JStr "e0"] ++ [Fixtures.stepped_action]) |}).
Proof.
  apply (step_appends_deltalog Fixtures.tags Fixtures.draw_bot
           Fixtures.store0 Fixtures.heap1 Fixtures.ctx0 (JArr [JStr "1"])
           (JStr "1") (JStr "m") Fixtures.stepped_action
           (Fixtures.echo_reducer Fixtures.state0 Fixtures.stepped_action)
           [("type", JStr "MAKE_MOVE");
            ("payload",
             JObj [("type", JStr "draw"); ("args", JArr []);
                   ("playerID", JStr "1"); ("credentials", JUndefined)])]
           [("type", JStr "draw"); ("args", JArr []);
            ("playerID", JStr "1"); ("credentials", JUndefined)]
           [JStr "e0"] [Fixtures.stepped_action]);
    reflexivity || (left; reflexivity).
Defined.

(** ** The constructor *)

Section Construction.

Context (Actions : ActionTypes) (ActionCreators : ActionCreatorsT).
Context {T : Type} `{!Transport T} {Enhancer : Type}.
Context (createStore : Reducer → option Enhancer → Store * jsval).
Context (transport_createStore :
           T → Reducer → option Enhancer → Store * jsval).
Context (CreateGameReducer : Game → jsval → jsval → Reducer).

(** The client the constructor returns, field by field.  [server] is the
    address taken from a [multiplayer] object that has one. *)
Lemma new_ClientImpl_fields (opts : ClientOpts (Enhancer := Enhancer)) :
  let server :=
    match opts_multiplayer opts with
    | JObj ps => assoc "server" ps
    | _ => None
    end in
  let multiplayer' :=
    match server with
    | Some _ => JBool true
    | None => opts_multiplayer opts
    end in
  let reducer' :=
    CreateGameReducer (opts_game opts) (opts_numPlayers opts) multiplayer' in
  let mc :=
    new_Multiplayer (opts_gameID opts) (opts_playerID opts)
      (name (opts_game opts)) (opts_numPlayers opts)
      (default JUndefined server) (opts_socketOpts opts) in
  ∃ this,
    new_ClientImpl Actions ActionCreators createStore transport_createStore
      CreateGameReducer opts = Normal this
    ∧ game this = opts_game opts
    ∧ gameID this = opts_gameID opts
    ∧ credentials this = opts_credentials opts
    ∧ multiplayer this = multiplayer'
    ∧ reducer this = reducer'
    ∧ log (heap this) = JArr []
    ∧ dispatchers_current Actions ActionCreators this
    ∧ (if truthy (opts_multiplayer opts)
       then playerID this = opts_playerID opts
            ∧ multiplayerClient this = Some mc
            ∧ (store this, store_state (heap this))
              = transport_createStore mc reducer' (opts_enhancer opts)
       else playerID this =
              (if is_null (opts_playerID opts) then JUndefined
               else opts_playerID opts)
            ∧ multiplayerClient this = None
            ∧ (store this, store_state (heap this))
              = createStore reducer' (opts_enhancer opts)).
Proof.
  unfold new_ClientImpl.
  destruct (opts_multiplayer opts) as [| |b|n|s|l|ps] eqn:Hmp; cbn;
    try (destruct (assoc "server" ps) as [server|] eqn:Hserver; cbn);
    repeat match goal with
      | |- context [if ?c then (_, _, _) else _] => destruct c eqn:?
      | |- context [createStore ?r ?e] => destruct (createStore r e) eqn:?
      | |- context [transport_createStore ?t ?r ?e] =>
          destruct (transport_createStore t r e) eqn:?
      end;
    (eexists; split; [reflexivity|]); cbn; by repeat split.
Qed.

End Construction.

(** X11. The constructor normalises [multiplayer]: an object with a
    [server] property becomes [true] and its server address goes to the
    transport; anything else is kept as given, the transport (if any)
    getting no address.  A transport is created exactly when [multiplayer]
    is truthy, and the reducer is built with the normalised value. *)
Theorem constructor_normalises_multiplayer
    (Actions : ActionTypes) (ActionCreators : ActionCreatorsT)
    {T : Type} `{!Transport T} {Enhancer : Type}
    (createStore : Reducer → option Enhancer → Store * jsval)
    (transport_createStore : T → Reducer → option Enhancer → Store * jsval)
    (CreateGameReducer : Game → jsval → jsval → Reducer)
    (opts : ClientOpts (Enhancer := Enhancer)) :
  ∃ this,
    new_ClientImpl Actions ActionCreators createStore transport_createStore
      CreateGameReducer opts = Normal this
    ∧ (is_Some (multiplayerClient this)
       ↔ truthy (opts_multiplayer opts) = true)
    ∧ truthy (multiplayer this) = truthy (opts_multiplayer opts)
    ∧ reducer this =
        CreateGameReducer (opts_game opts) (opts_numPlayers opts)
          (multiplayer this)
    ∧ (∀ ps server,
         opts_multiplayer opts = JObj ps →
         assoc "server" ps = Some server →
         multiplayer this = JBool true
         ∧ multiplayerClient this =
             Some (new_Multiplayer (opts_gameID opts) (opts_playerID opts)
                     (name (opts_game opts)) (opts_numPlayers opts) server
                     (opts_socketOpts opts)))
    ∧ ((∀ ps, opts_multiplayer opts = JObj ps → assoc "server" ps = None) →
       multiplayer this = opts_multiplayer opts
       ∧ multiplayerClient this =
           if truthy (opts_multiplayer opts)
           then Some (new_Multiplayer (opts_gameID opts) (opts_playerID opts)
                        (name (opts_game opts)) (opts_numPlayers opts)
                        JUndefined (opts_socketOpts opts))
           else None).
Proof.
  destruct (new_ClientImpl_fields Actions ActionCreators createStore
              transport_createStore CreateGameReducer opts)
    as (this & Hnew & _ & _ & _ & Hmp & Hreducer & _ & _ & Hmode).
  cbn zeta in Hmp, Hreducer, Hmode.
  exists this. split; [done|].
  rewrite Hreducer, Hmp. clear Hreducer.
  assert (truthy
            match
              match opts_multiplayer opts with
              | JObj ps => assoc "server" ps
              | _ => None
              end
            with
            | Some _ => JBool true
            | None => opts_multiplayer opts
            end = truthy (opts_multiplayer opts)) as Htruthy.
  { destruct (opts_multiplayer opts) as [| |b|n|s|l|ps]; try done.
    by destruct (assoc "server" ps). }
  split.
  { destruct (truthy (opts_multiplayer opts));
      destruct Hmode as (_ & -> & _); split; try done;
      try (by intros [??]); try (by eexists). }
  split; [done|]. split; [done|]. split.
  - intros ps server Hopts Hserver. rewrite Hopts in Hmode |- *.
    rewrite Hserver in Hmode |- *. cbn in Hmode.
    by destruct Hmode as (_ & -> & _).
  - intros Hnone.
    assert (match opts_multiplayer opts with
            | JObj ps => assoc "server" ps
            | _ => None
            end = None) as Hserver.
    { destruct (opts_multiplayer opts) as [| |b|n|s|l|ps]; try done.
      by apply Hnone. }
    rewrite Hserver in Hmode |- *. cbn in Hmode. split; [done|].
    by destruct (truthy (opts_multiplayer opts));
      destruct Hmode as (_ & -> & _).
Qed.

Lemma constructor_normalises_multiplayer_witness :
  ∃ this,
    new_ClientImpl Fixtures.tags Fixtures.creators Fixtures.createStore0
      Fixtures.transport_createStore0 Fixtures.CreateGameReducer0
      Cases.opts_server = Normal this
    ∧ multiplayer this = JBool true
    ∧ multiplayerClient this =
        Some {| Fixtures.socket_gameID := JStr "default";
                Fixtures.socket_playerID := JNull;
                Fixtures.socket_connected := false |}.
Proof.
  destruct (constructor_normalises_multiplayer Fixtures.tags
              Fixtures.creators Fixtures.createStore0
              Fixtures.transport_createStore0 Fixtures.CreateGameReducer0
              Cases.opts_server)
    as (this & Hnew & _ & _ & _ & Hserver & _).
  exists this. split; [exact Hnew|].
  apply (Hserver [("server", JStr "host:8000")] (JStr "host:8000"));
    reflexivity.
Defined.

(** X12. A new client starts with an empty log and with dispatcher sets
    built from its own fields.  In single-player mode its player id is never
    [null] (a [null] option becomes [undefined], anything else is kept) and
    its store is the one [createStore] makes for its reducer; in multiplayer
    mode the player id is kept as given, [null] included, and the store is
    the one the transport makes. *)
Theorem constructor_initial_client
    (Actions : ActionTypes) (ActionCreators : ActionCreatorsT)
    {T : Type} `{!Transport T} {Enhancer : Type}
    (createStore : Reducer → option Enhancer → Store * jsval)
    (transport_createStore : T → Reducer → option Enhancer → Store * jsval)
    (CreateGameReducer : Game → jsval → jsval → Reducer)
    (opts : ClientOpts (Enhancer := Enhancer)) :
  ∃ this,
    new_ClientImpl Actions ActionCreators createStore transport_createStore
      CreateGameReducer opts = Normal this
    ∧ log (heap this) = JArr []
    ∧ dispatchers_current Actions ActionCreators this
    ∧ game this = opts_game opts
    ∧ gameID this = opts_gameID opts
    ∧ credentials this = opts_credentials opts
    ∧ (truthy (opts_multiplayer opts) = false →
       playerID this ≠ JNull
       ∧ (opts_playerID opts = JNull → playerID this = JUndefined)
       ∧ (opts_playerID opts ≠ JNull → playerID this = opts_playerID opts)
       ∧ (store this, store_state (heap this))
         = createStore (reducer this) (opts_enhancer opts))
    ∧ (truthy (opts_multiplayer opts) = true →
       playerID this = opts_playerID opts
       ∧ ∃ mc, multiplayerClient this = Some mc
               ∧ (store this, store_state (heap this))
                 = transport_createStore mc (reducer this)
                     (opts_enhancer opts)).
Proof.
  destruct (new_ClientImpl_fields Actions ActionCreators createStore
              transport_createStore CreateGameReducer opts)
    as (this & Hnew & Hgame & HgameID & Hcred & _ & Hreducer & Hlog
        & Hcurrent & Hmode).
  cbn zeta in Hreducer, Hmode. rewrite <- Hreducer in Hmode.
  exists this. do 6 (split; [done|]).
  split; intros Htruthy; rewrite Htruthy in Hmode.
  - destruct Hmode as (-> & _ & Hstore).
    split; [by destruct (opts_playerID opts)|].
    split; [by intros ->|]. split; [|done].
    intros Hne. by destruct (opts_playerID opts).
  - destruct Hmode as (-> & Hmc & Hstore). split; [done|]. by eexists.
Qed.

Lemma constructor_initial_client_witness :
  ∃ this,
    Fixtures.client0 None JUndefined JNull = Normal this
    ∧ log (heap this) = JArr []
    ∧ playerID this = JUndefined
    ∧ (store this, store_state (heap this))
      = Fixtures.createStore0 (reducer this) None.
Proof.
  destruct (constructor_initial_client Fixtures.tags Fixtures.creators
              Fixtures.createStore0 Fixtures.transport_createStore0
              Fixtures.CreateGameReducer0
              (Fixtures.opts0 None JUndefined JNull))
    as (this & Hnew & Hlog & _ & _ & _ & _ & Hsingle & _).
  exists this. split; [exact Hnew|]. split; [exact Hlog|].
  destruct (Hsingle eq_refl) as (_ & Hnull & _ & Hstore).
  split; [by apply Hnull|exact Hstore].
Defined.

(** ** The mutators, in sequence *)

Section MutatorCalls.

Context (Actions : ActionTypes) (ActionCreators : ActionCreatorsT).
Context {T : Type} `{!Transport T}.


End MutatorCalls.



(** X14. The constructor's [null]-to-[undefined] step is not repeated by
    [updatePlayerID]: after [updatePlayerID(null)] the field holds [null].
    In single-player mode the client still behaves as one without a player
    id: the move dispatchers read afterwards act for [ctx.currentPlayer] of
    the state they are called on, and [isActive] is [true] while the game is
    not over. *)
Theorem updatePlayerID_null_acts_as_unset
    (Actions : ActionTypes) (ActionCreators : ActionCreatorsT)
    {T : Type} `{!Transport T} (this : ClientImpl (T := T)) :
  truthy (multiplayer this) = false →
  playerID (updatePlayerID Actions ActionCreators JNull this) = JNull
  ∧ (∀ name args h ctx currentPlayer,
       name ∈ moveNames (game this) →
       get (store_state h) "ctx" = Normal ctx →
       get ctx "currentPlayer" = Normal currentPlayer →
       ∃ d,
         moves (updatePlayerID Actions ActionCreators JNull this) !! name
           = Some d
         ∧ d args h =
             (store_dispatch Actions (store this)
                (makeMove ActionCreators (JStr name) (JArr args)
                   currentPlayer (credentials this));;
              mret ()) h)
  ∧ (∀ ctx,
       get (store_state (heap this)) "ctx" = Normal ctx →
       get ctx "gameover" = Normal JUndefined →
       ∃ ret,
         getState (updatePlayerID Actions ActionCreators JNull this)
           = Normal ret
         ∧ get ret "isActive" = Normal (JBool true)).
Proof.
  intros Hsingle.
  assert (playerID (updatePlayerID Actions ActionCreators JNull this)
          = JNull
          ∧ multiplayer (updatePlayerID Actions ActionCreators JNull this)
            = multiplayer this
          ∧ heap (updatePlayerID Actions ActionCreators JNull this)
            = heap this
          ∧ moves (updatePlayerID Actions ActionCreators JNull this)
            = createMoveDispatchers Actions ActionCreators
                (moveNames (game this)) (store this) JNull
                (credentials this) (multiplayer this))
    as (Hid & Hmp & Hheap & Hmoves).
  { unfold updatePlayerID. cbn.
    by destruct (multiplayerClient this). }
  split; [done|]. split.
  - intros name args h ctx currentPlayer Hin Hctx Hcur.
    eexists. split.
    + rewrite Hmoves. unfold createMoveDispatchers.
      rewrite createDispatchers_lookup. by rewrite decide_True.
    + eapply dispatcher_assumes_currentPlayer; eauto.
  - intros ctx Hctx Hover. rewrite <- Hheap in Hctx.
    destruct (get_ctx_get_G _ _ Hctx) as [G0 HG].
    destruct (getState_fields _ G0 ctx JUndefined HG Hctx Hover)
      as (ret & Hret & Hactive & _).
    exists ret. split; [done|].
    rewrite Hactive, Hmp, Hsingle, Hid. done.
Qed.

Lemma updatePlayerID_null_acts_as_unset_witness :
  playerID
    (updatePlayerID Fixtures.tags Fixtures.creators JNull
       (Fixtures.client JUndefined (JStr "0") None Fixtures.heap0)) = JNull
  ∧ ∃ ret,
      getState
        (updatePlayerID Fixtures.tags Fixtures.creators JNull
           (Fixtures.client JUndefined (JStr "0") None Fixtures.heap0))
        = Normal ret
      ∧ get ret "isActive" = Normal (JBool true).
Proof.
  destruct (updatePlayerID_null_acts_as_unset Fixtures.tags
              Fixtures.creators
              (Fixtures.client JUndefined (JStr "0") None Fixtures.heap0)
              eq_refl)
    as (Hid & _ & Hactive).
  split; [exact Hid|].
  apply (Hactive Fixtures.ctx0); reflexivity.
Defined.

(** ** [reset], [undo], [redo] *)

(** X15. Through the client's control methods: [reset()] empties the log,
    while [undo()] and [redo()] leave it exactly as it was (given that the
    reset action carries the reset tag and the undo and redo actions carry
    none of the five tags the middleware switches on). *)
Theorem control_methods_and_the_log
    (Actions : ActionTypes) (ActionCreators : ActionCreatorsT)
    {T : Type} `{!Transport T} (this : ClientImpl (T := T)) (h : Heap) :
  distinct_tags Actions →
  get (reset ActionCreators) "type" = Normal (JStr (RESET Actions)) →
  (∀ r s,
     next (store this) (reset ActionCreators) (store_state h)
       = (Normal r, s) →
     reset_method Actions ActionCreators this h =
       (Normal (), {| store_state := s; log := JArr [] |}))
  ∧ (∀ type r s,
       get (undo ActionCreators) "type" = Normal type →
       type ∉ [JStr (MAKE_MOVE Actions); JStr (GAME_EVENT Actions);
               JStr (RESET Actions); JStr (UPDATE Actions);
               JStr (SYNC Actions)] →
       next (store this) (undo ActionCreators) (store_state h)
         = (Normal r, s) →
       undo_method Actions ActionCreators this h =
         (Normal (), {| store_state := s; log := log h |}))
  ∧ (∀ type r s,
       get (redo ActionCreators) "type" = Normal type →
       type ∉ [JStr (MAKE_MOVE Actions); JStr (GAME_EVENT Actions);
               JStr (RESET Actions); JStr (UPDATE Actions);
               JStr (SYNC Actions)] →
       next (store this) (redo ActionCreators) (store_state h)
         = (Normal r, s) →
       redo_method Actions ActionCreators this h =
         (Normal (), {| store_state := s; log := log h |})).
Proof.
  intros Htags Hreset. refine (conj _ (conj _ _)).
  - intros r s Hnext.
    unfold reset_method, mbind, M_bind, store_dispatch.
    by rewrite (dispatch_reset _ _ _ _ _ _ Htags Hnext Hreset).
  - intros type r s Htype Hother Hnext.
    rewrite !not_elem_of_cons in Hother.
    unfold undo_method, mbind, M_bind, store_dispatch.
    rewrite (dispatch_other _ _ _ _ _ _ _ Hnext Htype); [done|tauto..].
  - intros type r s Htype Hother Hnext.
    rewrite !not_elem_of_cons in Hother.
    unfold redo_method, mbind, M_bind, store_dispatch.
    rewrite (dispatch_other _ _ _ _ _ _ _ Hnext Htype); [done|tauto..].
Qed.

Lemma control_methods_and_the_log_witness :
  reset_method Fixtures.tags Fixtures.creators
    (Fixtures.client JUndefined JUndefined None Fixtures.heap1)
    Fixtures.heap1 =
    (Normal (),
     {| store_state :=
          Fixtures.echo_reducer Fixtures.state0 (reset Fixtures.creators);
        log := JArr [] |})
  ∧ undo_method Fixtures.tags Fixtures.creators
      (Fixtures.client JUndefined JUndefined None Fixtures.heap1)
      Fixtures.heap1 =
      (Normal (),
       {| store_state :=
            Fixtures.echo_reducer Fixtures.state0 (undo Fixtures.creators);
          log := JArr [JStr "e0"] |})
  ∧ redo_method Fixtures.tags Fixtures.creators
      (Fixtures.client JUndefined JUndefined None Fixtures.heap1)
      Fixtures.heap1 =
      (Normal (),
       {| store_state :=
            Fixtures.echo_reducer Fixtures.state0 (redo Fixtures.creators);
          log := JArr [JStr "e0"] |}).
Proof.
  assert (Htags : distinct_tags Fixtures.tags)
    by (unfold distinct_tags; compute_done).
  destruct (control_methods_and_the_log Fixtures.tags Fixtures.creators
              (Fixtures.client JUndefined JUndefined None Fixtures.heap1)
              Fixtures.heap1 Htags eq_refl)
    as (Hreset & Hundo & Hredo).
  refine (conj _ (conj _ _)).
  - eapply Hreset. reflexivity.
  - eapply Hundo; [reflexivity| |reflexivity].
    rewrite !not_elem_of_cons. repeat split; try discriminate.
    apply not_elem_of_nil.
  - eapply Hredo; [reflexivity| |reflexivity].
    rewrite !not_elem_of_cons. repeat split; try discriminate.
    apply not_elem_of_nil.
Defined.

(** ** Defaults and the game-over test *)

(** X16. The [|| []] defaults of the update and sync branches apply to every
    falsy field, not only to an absent one: an update whose [deltalog] is
    [null], [false], [0] or the empty string leaves the log as it was, and a
    sync whose [log] is one of these leaves it empty. *)
Theorem falsy_fields_default_to_empty
    (Actions : ActionTypes) (store : Store) (action : jsval) (h : Heap)
    (r s field : jsval) :
  distinct_tags Actions →
  next store action (store_state h) = (Normal r, s) →
  truthy field = false →
  (get action "type" = Normal (JStr (UPDATE Actions)) →
   get action "deltalog" = Normal field →
   ∀ m, log h = JArr m →
   store_dispatch Actions store action h =
     (Normal r, {| store_state := s; log := JArr m |}))
  ∧ (get action "type" = Normal (JStr (SYNC Actions)) →
     get action "log" = Normal field →
     store_dispatch Actions store action h =
       (Normal r, {| store_state := s; log := JArr [] |})).
Proof.
  intros Htags Hnext Hfalsy. unfold store_dispatch. split.
  - intros Htype Hd m Hlog.
    rewrite (dispatch_update _ _ _ _ _ _ _ Htags Hnext Htype Hd).
    unfold js_or. rewrite Hfalsy, Hlog. cbn. by rewrite app_nil_r.
  - intros Htype Hl.
    rewrite (dispatch_sync _ _ _ _ _ _ _ Htags Hnext Htype Hl).
    unfold js_or. by rewrite Hfalsy.
Qed.

Lemma falsy_fields_default_to_empty_witness :
  store_dispatch Fixtures.tags Fixtures.store0
    (JObj [("type", JStr "UPDATE"); ("deltalog", JNull)]) Fixtures.heap1 =
    (Normal (JObj [("type", JStr "UPDATE"); ("deltalog", JNull)]),
     {| store_state :=
          Fixtures.echo_reducer Fixtures.state0
            (JObj [("type", JStr "UPDATE"); ("deltalog", JNull)]);
        log := JArr [JStr "e0"] |})
  ∧ store_dispatch Fixtures.tags Fixtures.store0
      (JObj [("type", JStr "SYNC"); ("log", JNull)]) Fixtures.heap1 =
      (Normal (JObj [("type", JStr "SYNC"); ("log", JNull)]),
       {| store_state :=
            Fixtures.echo_reducer Fixtures.state0
              (JObj [("type", JStr "SYNC"); ("log", JNull)]);
          log := JArr [] |}).
Proof.
  assert (Htags : distinct_tags Fixtures.tags)
    by (unfold distinct_tags; compute_done).
  split.
  - refine (proj1 (falsy_fields_default_to_empty Fixtures.tags
                     Fixtures.store0
                     (JObj [("type", JStr "UPDATE"); ("deltalog", JNull)])
                     Fixtures.heap1 _ _ JNull Htags eq_refl eq_refl)
              eq_refl eq_refl [JStr "e0"] eq_refl).
  - refine (proj2 (falsy_fields_default_to_empty Fixtures.tags
                     Fixtures.store0
                     (JObj [("type", JStr "SYNC"); ("log", JNull)])
                     Fixtures.heap1 _ _ JNull Htags eq_refl eq_refl)
              eq_refl eq_refl).
Defined.

(** X17. Game over is tested as [ctx.gameover !== undefined]: in every mode
    and for every player id, [isActive] is [false] as soon as [ctx.gameover]
    holds any value other than [undefined], the falsy values [null],
    [false] and [0] included, whatever [canPlayerMakeMove] answers. *)
Theorem game_over_means_inactive
    {T : Type} `{!Transport T} (this : ClientImpl (T := T))
    (ctx gameover : jsval) :
  get (store_state (heap this)) "ctx" = Normal ctx →
  get ctx "gameover" = Normal gameover →
  gameover ≠ JUndefined →
  ∃ ret, getState this = Normal ret
         ∧ get ret "isActive" = Normal (JBool false).
Proof.
  intros Hctx Hover Hdefined.
  destruct (get_ctx_get_G _ _ Hctx) as [G0 HG].
  destruct (getState_fields this G0 ctx gameover HG Hctx Hover)
    as (ret & Hret & Hactive & _).
  exists ret. split; [done|]. rewrite Hactive.
  by destruct gameover.
Qed.

Lemma game_over_means_inactive_witness :
  ∃ ret,
    getState
      (Fixtures.client JUndefined JUndefined None
         {| store_state :=
              JObj [("G", JNum 7); ("ctx", JObj [("gameover", JBool false)])];
            log := JArr [] |}) = Normal ret
    ∧ get ret "isActive" = Normal (JBool false).
Proof.
  apply (game_over_means_inactive
           (Fixtures.client JUndefined JUndefined None
              {| store_state :=
                   JObj [("G", JNum 7);
                         ("ctx", JObj [("gameover", JBool false)])];
                 log := JArr [] |})
           (JObj [("gameover", JBool false)]) (JBool false));
    [reflexivity | reflexivity | discriminate].
Defined.
